(** * SaharaQrRegapp: QR registration records, timestamps and CSV export

    A shallow embedding of the three programs of the repository

    - the mobile records screen  ([app/(tabs)/records.tsx], [Module Records]),
    - the mobile scanner screen  ([app/(tabs)/index.tsx],   [Module Scanner]),
    - the web application        ([app.js],                 [Module Web]),

    over a small model of the JavaScript runtime they call ([Module JS]).
    The formatting statements the records screen and the web application
    have in common are in [Module Format], the CSV text in [Module Csv],
    and the two mobile screens are put over one storage in [Module Mobile].

    Modelling conventions.
    - A JavaScript string is a [string]; each [ascii] stands for one code
      unit in the range U+0000..U+00FF.
    - A JavaScript number is a [number] = [option Z], [None] being NaN.  All
      numbers that occur are integers of magnitude below 2^53, on which
      double arithmetic is exact.
    - A [Date] object is its time value, a [number] (milliseconds since the
      epoch, NaN for an invalid date).
    - What the host decides (the local timezone, the parsing of date
      strings) is a [Host] passed explicitly; the clock is read by the
      caller and passed as [now].
    - AsyncStorage and IndexedDB are reliable single-writer stores; the
      JSON text under the key [@qr_records] is modelled by the list it
      encodes, the IndexedDB object store (keyPath [qrcode]) by a [gmap].
    - A handler runs to its end before the next event is taken: the
      interleavings of the awaits inside one handler are not modelled. *)

From Stdlib Require Import ZArith String Ascii Lia Permutation Sorted.
From Stdlib Require Import Decimal DecimalFacts DecimalPos DecimalString.
From stdpp Require Import base option list sorting gmap strings.

Open Scope string_scope.
Open Scope Z_scope.

(* ===================================================================== *)
(** * The JavaScript runtime                                              *)
(* ===================================================================== *)

Module JS.

(** ** Strings *)

(** [WhiteSpace] and [LineTerminator] code units below U+0100: TAB, LF,
    VT, FF, CR, SP and NBSP. *)
Definition isWhiteSpace (c : ascii) : bool :=
  let n := N_of_ascii c in
  ((9 <=? n) && (n <=? 13) || (n =? 32) || (n =? 160))%N.

Fixpoint trimStart (s : string) : string :=
  match s with
  | EmptyString => EmptyString
  | String c s' => if isWhiteSpace c then trimStart s' else s
  end.

Fixpoint trimEnd (s : string) : string :=
  match s with
  | EmptyString => EmptyString
  | String c s' =>
      match trimEnd s' with
      | EmptyString => if isWhiteSpace c then EmptyString else String c EmptyString
      | t => String c t
      end
  end.

(** [String.prototype.trim] *)
Definition trim (s : string) : string := trimEnd (trimStart s).

(** Truthiness of a string: [!s] holds exactly for the empty string. *)
Definition truthy (s : string) : bool :=
  match s with EmptyString => false | _ => true end.

(** [a || b] on strings *)
Definition or_else (a b : string) : string := if truthy a then a else b.

Fixpoint repeat_char (c : ascii) (n : nat) : string :=
  match n with O => EmptyString | S n' => String c (repeat_char c n') end.

(** [s.padStart(target, c)] for a one-character filler *)
Definition padStart (target : nat) (c : ascii) (s : string) : string :=
  repeat_char c (target - String.length s) +:+ s.

(** [s.replace(/c/g, by)] for a one-character pattern *)
Fixpoint replaceAll (c : ascii) (by_ : string) (s : string) : string :=
  match s with
  | EmptyString => EmptyString
  | String d s' =>
      (if Ascii.eqb d c then by_ else String d EmptyString) +:+ replaceAll c by_ s'
  end.

(** [xs.join(sep)] *)
Fixpoint join (sep : string) (xs : list string) : string :=
  match xs with
  | [] => EmptyString
  | [x] => x
  | x :: rest => x +:+ sep +:+ join sep rest
  end.

(** [s.endsWith(suffix)] *)
Fixpoint endsWith (suffix s : string) : bool :=
  if String.eqb s suffix then true
  else match s with
       | String _ s' => endsWith suffix s'
       | EmptyString => false
       end.

(** [s.slice(0, n)] *)
Definition slice0 (n : nat) (s : string) : string := String.substring 0 n s.

(** ** Arrays *)

(** [xs.some(p)] *)
Definition some {A} (p : A -> bool) (xs : list A) : bool := existsb p xs.

(** ** Numbers *)

Definition number := option Z.
Definition NaN : number := None.

Definition isNaN (x : number) : bool :=
  match x with None => true | Some _ => false end.

Definition nadd (x y : number) : number :=
  match x, y with Some a, Some b => Some (a + b) | _, _ => NaN end.

Definition nsub (x y : number) : number :=
  match x, y with Some a, Some b => Some (a - b) | _, _ => NaN end.

Definition nmul (x y : number) : number :=
  match x, y with Some a, Some b => Some (a * b) | _, _ => NaN end.

(** [x % m] for a positive constant [m]: the sign follows the dividend. *)
Definition nrem (x : number) (m : Z) : number :=
  match x with Some a => Some (Z.rem a m) | None => NaN end.

(** [x >= k]: false when [x] is NaN. *)
Definition nge (x : number) (k : Z) : bool :=
  match x with Some a => k <=? a | None => false end.

(** Truthiness of a number: 0 and NaN are falsy. *)
Definition ntruthy (x : number) : bool :=
  match x with Some a => negb (a =? 0) | None => false end.

Definition Z_toString (z : Z) : string := NilZero.string_of_int (Z.to_int z).

(** [Number.prototype.toString] and [`${x}`] for integral [x] *)
Definition toString (x : number) : string :=
  match x with Some a => Z_toString a | None => "NaN" end.

(** [`${x}`] where [x] may be [undefined] *)
Definition template_opt (x : option string) : string :=
  match x with Some s => s | None => "undefined" end.

(** ** Sorting

    [xs.sort(comparefn)].  ECMAScript requires the sort to be stable, and
    reads a NaN returned by the comparator as +0.  For a comparator that
    is a consistent order all stable sorts return the same array, the one
    computed here by insertion from the right. *)
Section Sort.
Context {A : Type} (comparefn : A -> A -> number).

Definition SortCompare (x y : A) : Z :=
  match comparefn x y with Some v => v | None => 0 end.

Fixpoint insertSorted (x : A) (l : list A) : list A :=
  match l with
  | [] => [x]
  | y :: l' => if SortCompare x y <=? 0 then x :: l else y :: insertSorted x l'
  end.

Fixpoint sort (l : list A) : list A :=
  match l with
  | [] => []
  | x :: l' => insertSorted x (sort l')
  end.

End Sort.

(** ** Time values (ECMAScript, Date objects: time values and time range) *)

Definition msPerDay : Z := 86400000.
Definition msPerHour : Z := 3600000.
Definition msPerMinute : Z := 60000.
Definition msPerSecond : Z := 1000.

Definition Day (t : Z) : Z := t / msPerDay.

Definition isLeapYear (y : Z) : bool :=
  (y mod 4 =? 0) && (negb (y mod 100 =? 0) || (y mod 400 =? 0)).

Definition DaysInYear (y : Z) : Z := if isLeapYear y then 366 else 365.

Definition DayFromYear (y : Z) : Z :=
  365 * (y - 1970) + (y - 1969) / 4 - (y - 1901) / 100 + (y - 1601) / 400.

(** The largest [y] with [DayFromYear y <= Day t], found from the estimate
    by the mean length of a Gregorian year ([YearFromTime_spec] below). *)
Definition YearFromTime (t : Z) : Z :=
  let d := Day t in
  let y := 1970 + (400 * d) / 146097 in
  if d <? DayFromYear y then y - 1
  else if DayFromYear (y + 1) <=? d then y + 1
  else y.

Definition InLeapYear (t : Z) : Z :=
  if isLeapYear (YearFromTime t) then 1 else 0.

Definition DayWithinYear (t : Z) : Z := Day t - DayFromYear (YearFromTime t).

(** Day number, within a year, of the first day of month [m] (0..11, and
    12 for the end of the year); [L] is 1 in a leap year. *)
Definition monthStart (L m : Z) : Z :=
  match m with
  | 0 => 0 | 1 => 31 | 2 => 59 + L | 3 => 90 + L | 4 => 120 + L
  | 5 => 151 + L | 6 => 181 + L | 7 => 212 + L | 8 => 243 + L
  | 9 => 273 + L | 10 => 304 + L | 11 => 334 + L | _ => 365 + L
  end.

Definition MonthFromTime (t : Z) : Z :=
  let d := DayWithinYear t in
  let L := InLeapYear t in
  if d <? monthStart L 1 then 0
  else if d <? monthStart L 2 then 1
  else if d <? monthStart L 3 then 2
  else if d <? monthStart L 4 then 3
  else if d <? monthStart L 5 then 4
  else if d <? monthStart L 6 then 5
  else if d <? monthStart L 7 then 6
  else if d <? monthStart L 8 then 7
  else if d <? monthStart L 9 then 8
  else if d <? monthStart L 10 then 9
  else if d <? monthStart L 11 then 10
  else 11.

Definition DateFromTime (t : Z) : Z :=
  DayWithinYear t - monthStart (InLeapYear t) (MonthFromTime t) + 1.

Definition HourFromTime (t : Z) : Z := (t / msPerHour) mod 24.
Definition MinFromTime (t : Z) : Z := (t / msPerMinute) mod 60.
Definition SecFromTime (t : Z) : Z := (t / msPerSecond) mod 60.
Definition msFromTime (t : Z) : Z := t mod msPerSecond.

Definition MakeTime (hour min sec ms : Z) : Z :=
  hour * msPerHour + min * msPerMinute + sec * msPerSecond + ms.

(** [MakeDay] for a month in 0..11 *)
Definition MakeDay (year month date : Z) : Z :=
  DayFromYear year + monthStart (if isLeapYear year then 1 else 0) month + date - 1.

Definition MakeDate (day time : Z) : Z := day * msPerDay + time.

Definition maxTime : Z := 8640000000000000.

Definition TimeClip (x : number) : number :=
  match x with
  | Some t => if Z.abs t <=? maxTime then Some t else NaN
  | None => NaN
  end.

(** ** The host *)

(** [tzOffset t] is what [getTimezoneOffset()] returns on a Date of time
    value [t]: the minutes to add to local time to reach UTC.
    [Date_parse] is [Date.parse]. *)
Record Host := {
  tzOffset : Z -> Z;
  Date_parse : string -> number
}.

(** ** Date objects *)

Definition Date := number.

(** [new Date(s)] for a string [s] *)
Definition new_Date_string (h : Host) (s : string) : Date :=
  TimeClip (Date_parse h s).

(** [new Date(x)] for a number [x] *)
Definition new_Date_number (x : number) : Date := TimeClip x.

Definition getTime (d : Date) : number := d.

Definition getTimezoneOffset (h : Host) (d : Date) : number :=
  match d with Some t => Some (tzOffset h t) | None => NaN end.

Definition LocalTime (h : Host) (t : Z) : Z := t - tzOffset h t * msPerMinute.

Definition local_field (f : Z -> Z) (h : Host) (d : Date) : number :=
  match d with Some t => Some (f (LocalTime h t)) | None => NaN end.

Definition getFullYear := local_field YearFromTime.
Definition getMonth := local_field MonthFromTime.
Definition getDate := local_field DateFromTime.
Definition getHours := local_field HourFromTime.
Definition getMinutes := local_field MinFromTime.
Definition getSeconds := local_field SecFromTime.

Definition pad2 (z : Z) : string := padStart 2 "0" (Z_toString z).

(** The year of [toISOString]: four digits for 0..9999, a sign and six
    digits otherwise. *)
Definition isoYear (y : Z) : string :=
  if (0 <=? y) && (y <=? 9999) then padStart 4 "0" (Z_toString y)
  else (if y <? 0 then "-" else "+") +:+ padStart 6 "0" (Z_toString (Z.abs y)).

(** [d.toISOString()]; [None] stands for the RangeError thrown on an
    invalid date. *)
Definition toISOString (d : Date) : option string :=
  match d with
  | None => None
  | Some t =>
      Some (isoYear (YearFromTime t) +:+ "-" +:+ pad2 (MonthFromTime t + 1)
            +:+ "-" +:+ pad2 (DateFromTime t)
            +:+ "T" +:+ pad2 (HourFromTime t)
            +:+ ":" +:+ pad2 (MinFromTime t)
            +:+ ":" +:+ pad2 (SecFromTime t)
            +:+ "." +:+ padStart 3 "0" (Z_toString (msFromTime t)) +:+ "Z")
  end.

(** ** Parsing the interchange format

    [isoParse] reads the date-time strings [YYYY-MM-DDTHH:mm:ssZ] and
    [YYYY-MM-DDTHH:mm:ss.sssZ] (year of four digits, or signed with six),
    the subset of the ECMAScript date-time string format that
    [toISOString] writes.  A host is [conforming] when its [Date.parse]
    agrees with [isoParse] wherever the latter succeeds; what it does on
    other strings is left to the host. *)

Definition digit (c : ascii) : option Z :=
  let n := N_of_ascii c in
  if ((48 <=? n) && (n <=? 57))%N then Some (Z.of_N n - 48) else None.

Fixpoint digits (n : nat) (acc : Z) (s : string) : option (Z * string) :=
  match n with
  | O => Some (acc, s)
  | S n' =>
      match s with
      | String c s' =>
          match digit c with
          | Some d => digits n' (10 * acc + d) s'
          | None => None
          end
      | EmptyString => None
      end
  end.

Definition expect (c : ascii) (s : string) : option string :=
  match s with
  | String d s' => if Ascii.eqb c d then Some s' else None
  | EmptyString => None
  end.

Definition parseYear (s : string) : option (Z * string) :=
  match s with
  | String c s' =>
      if Ascii.eqb c "+" then digits 6 0 s'
      else if Ascii.eqb c "-" then
        '(y, r) ← digits 6 0 s';
        if y =? 0 then None else Some (- y, r)
      else digits 4 0 s
  | EmptyString => None
  end.

Definition parseMillis (s : string) : option (Z * string) :=
  match s with
  | String c s' => if Ascii.eqb c "." then digits 3 0 s' else Some (0, s)
  | EmptyString => Some (0, s)
  end.

Definition DaysInMonth (y m : Z) : Z :=
  let L := if isLeapYear y then 1 else 0 in
  monthStart L m - monthStart L (m - 1).

Definition isoParse (s : string) : number :=
  '(y, s) ← parseYear s;
  s ← expect "-" s;
  '(mo, s) ← digits 2 0 s;
  s ← expect "-" s;
  '(d, s) ← digits 2 0 s;
  s ← expect "T" s;
  '(hh, s) ← digits 2 0 s;
  s ← expect ":" s;
  '(mi, s) ← digits 2 0 s;
  s ← expect ":" s;
  '(ss, s) ← digits 2 0 s;
  '(ms, s) ← parseMillis s;
  s ← expect "Z" s;
  if truthy s then None
  else if (1 <=? mo) && (mo <=? 12) && (1 <=? d) && (d <=? DaysInMonth y mo)
          && (hh <=? 23) && (mi <=? 59) && (ss <=? 59)
       then TimeClip (Some (MakeDate (MakeDay y (mo - 1) d) (MakeTime hh mi ss ms)))
       else NaN.

Definition conforming (h : Host) : Prop :=
  forall s t, isoParse s = Some t -> Date_parse h s = Some t.

(** A host in a zone of constant offset whose [Date.parse] accepts the
    interchange format only. *)
Definition fixedHost (off : Z) : Host :=
  {| tzOffset := fun _ => off; Date_parse := isoParse |}.

End JS.

(* ===================================================================== *)
(** * The record                                                          *)
(* ===================================================================== *)

(** [interface QRRecord] of both screens; the web application writes the
    same object with [timezoneOffset: 180]. *)
Record QRRecord := {
  qrcode : string;
  name : string;
  timestamp : string;
  timezoneOffset : option Z
}.

#[global] Instance QRRecord_eq_dec : EqDecision QRRecord.
Proof. solve_decision. Defined.

(** [{ ...record, name: n }] *)
Definition with_name (r : QRRecord) (n : string) : QRRecord :=
  {| qrcode := qrcode r; name := n; timestamp := timestamp r;
     timezoneOffset := timezoneOffset r |}.

(* ===================================================================== *)
(** * Formatting in East Africa Time                                      *)
(* ===================================================================== *)

(** The mobile records screen and the web application carry the same
    formatting statements after the shifted date [eatTime] is built; they
    are embedded once here and called from both. *)
Module Format.
Import JS.

Definition months : list string :=
  ["Jan"; "Feb"; "Mar"; "Apr"; "May"; "Jun";
   "Jul"; "Aug"; "Sep"; "Oct"; "Nov"; "Dec"].

(** [months[i]]: [undefined] off the array and for NaN *)
Definition months_at (i : number) : option string :=
  match i with
  | Some z => if z <? 0 then None else months !! Z.to_nat z
  | None => None
  end.

(** [date.getTime() + (date.getTimezoneOffset() * 60000)], then
    [new Date(utcTime + 10800000)] *)
Definition shiftToEAT (h : Host) (date : Date) : Date :=
  let utcTime := nadd (getTime date) (nmul (getTimezoneOffset h date) (Some 60000)) in
  new_Date_number (nadd utcTime (Some 10800000)).

(** [const ampm = hours >= 12 ? 'PM' : 'AM'] *)
Definition ampm (hours : number) : string :=
  if nge hours 12 then "PM" else "AM".

(** [hours = hours % 12; hours = hours ? hours : 12] *)
Definition hour12 (hours : number) : number :=
  let hours := nrem hours 12 in
  if ntruthy hours then hours else Some 12.

(** The template of the display format, from the local variables
    [month], [day], [year], [hours] (after the 12-hour conversion),
    [minutes] and [ampm]. *)
Definition displayTemplate (month : option string) (day year hours : number)
    (minutes ampm : string) : string :=
  template_opt month +:+ " " +:+ toString day +:+ ", " +:+ toString year
  +:+ ", " +:+ toString hours +:+ ":" +:+ minutes +:+ " " +:+ ampm +:+ " EAT".

Definition displayOf (h : Host) (eatTime : Date) : string :=
  let month := months_at (getMonth h eatTime) in
  let day := getDate h eatTime in
  let year := getFullYear h eatTime in
  let hours := getHours h eatTime in
  let minutes := padStart 2 "0" (toString (getMinutes h eatTime)) in
  let ampm := ampm hours in
  let hours := hour12 hours in
  displayTemplate month day year hours minutes ampm.

Definition csvOf (h : Host) (eatTime : Date) : string :=
  let month := padStart 2 "0" (toString (nadd (getMonth h eatTime) (Some 1))) in
  let day := padStart 2 "0" (toString (getDate h eatTime)) in
  let year := getFullYear h eatTime in
  let hours := padStart 2 "0" (toString (getHours h eatTime)) in
  let minutes := padStart 2 "0" (toString (getMinutes h eatTime)) in
  let seconds := padStart 2 "0" (toString (getSeconds h eatTime)) in
  month +:+ "/" +:+ day +:+ "/" +:+ toString year +:+ " " +:+ hours
  +:+ ":" +:+ minutes +:+ ":" +:+ seconds +:+ " EAT".

(** [!timestamp] for a possibly absent string *)
Definition absent (timestamp : option string) : bool :=
  match timestamp with
  | Some ts => negb (truthy ts)
  | None => true
  end.

End Format.

(* ===================================================================== *)
(** * CSV text                                                            *)
(* ===================================================================== *)

Module Csv.
Import JS.

Definition dquote : ascii := "034"%char.
Definition newline : string := String "010"%char EmptyString.

(** A field between double quotes, every double quote inside it written
    twice: the template around [s.replace(/dquote/g, dquote dquote)]. *)
Definition escaped (s : string) : string :=
  String dquote (replaceAll dquote (String dquote (String dquote EmptyString)) s)
  +:+ String dquote EmptyString.

Definition csvHeader : string := "Name,QR Code,Registration Date (EAT)" +:+ newline.

(** The body of the [records.map] callback; [date] is
    [formatCSVTime(record.timestamp)]. *)
Definition csvRow (formatCSVTime : option string -> string) (record : QRRecord) : string :=
  let date := formatCSVTime (Some (timestamp record)) in
  let escapedName := escaped (or_else (name record) "") in
  let escapedQrcode := escaped (or_else (qrcode record) "") in
  let escapedDate := escaped date in
  escapedName +:+ "," +:+ escapedQrcode +:+ "," +:+ escapedDate.

(** [csvHeader + csvRows] *)
Definition csvContent (formatCSVTime : option string -> string)
    (records : list QRRecord) : string :=
  let csvRows := join newline (map (csvRow formatCSVTime) records) in
  csvHeader +:+ csvRows.

(** The name of the exported file, in both applications:
    [new Date().toISOString().slice(0, 19).replace(/:/g, '-')] between
    [qr-registration-] and [.csv]; [None] when [toISOString] throws. *)
Definition exportFilename (now : Z) : option string :=
  match toISOString (new_Date_number (Some now)) with
  | None => None
  | Some iso =>
      let timestamp := replaceAll ":" "-" (slice0 19 iso) in
      Some ("qr-registration-" +:+ timestamp +:+ ".csv")
  end.

End Csv.

(* ===================================================================== *)
(** * The mobile application                                              *)
(* ===================================================================== *)

(** The comparator of both [sort] calls:
    [new Date(b.timestamp).getTime() - new Date(a.timestamp).getTime()] *)
Definition byTimestampDesc (h : JS.Host) (a b : QRRecord) : JS.number :=
  JS.nsub (JS.getTime (JS.new_Date_string h (timestamp b)))
          (JS.getTime (JS.new_Date_string h (timestamp a))).

(** ** The records screen *)
Module Records.
Import JS Format.

(** [formatDisplayTime] of the records screen.  Nothing in the body of
    its try block throws, so the catch branch is never taken. *)
Definition formatDisplayTime (h : Host) (timestamp : option string) : string :=
  match timestamp with
  | None => "Unknown date"
  | Some ts =>
      if negb (truthy ts) then "Unknown date"
      else
        let date := new_Date_string h ts in
        if isNaN (getTime date) then "Invalid date"
        else displayOf h (shiftToEAT h date)
  end.

(** [formatCSVTime] of the records screen *)
Definition formatCSVTime (h : Host) (timestamp : option string) : string :=
  match timestamp with
  | None => "N/A"
  | Some ts =>
      if negb (truthy ts) then "N/A"
      else
        let date := new_Date_string h ts in
        if isNaN (getTime date) then "N/A"
        else csvOf h (shiftToEAT h date)
  end.

Record State := {
  records : list QRRecord;
  editModalVisible : bool;
  editingRecord : option QRRecord;
  editName : string
}.

Definition initial : State :=
  {| records := []; editModalVisible := false; editingRecord := None; editName := "" |}.

(** [loadRecords]; [storage] is the array under [RECORDS_KEY]. *)
Definition loadRecords (h : Host) (storage : list QRRecord) (st : State) : State :=
  let parsedRecords := storage in
  let parsedRecords := sort (byTimestampDesc h) parsedRecords in
  {| records := parsedRecords; editModalVisible := editModalVisible st;
     editingRecord := editingRecord st; editName := editName st |}.

(** [deleteRecord] once the user has pressed Delete in the alert: the new
    storage and the new state. *)
Definition deleteRecord (c : string) (st : State) : list QRRecord * State :=
  let updatedRecords :=
    List.filter (fun record => negb (String.eqb (qrcode record) c)) (records st) in
  (updatedRecords,
   {| records := updatedRecords; editModalVisible := editModalVisible st;
      editingRecord := editingRecord st; editName := editName st |}).

Definition editRecord (record : QRRecord) (st : State) : State :=
  {| records := records st; editModalVisible := true;
     editingRecord := Some record; editName := name record |}.

Definition setEditName (s : string) (st : State) : State :=
  {| records := records st; editModalVisible := editModalVisible st;
     editingRecord := editingRecord st; editName := s |}.

(** The Cancel button of the edit modal *)
Definition cancelEdit (st : State) : State :=
  {| records := records st; editModalVisible := false;
     editingRecord := None; editName := "" |}.

(** [onRequestClose] of the edit modal *)
Definition requestClose (st : State) : State :=
  {| records := records st; editModalVisible := false;
     editingRecord := editingRecord st; editName := editName st |}.

(** [saveEdit]: [None] when it returns before writing, otherwise the
    array written to storage and the new state. *)
Definition saveEdit (st : State) : option (list QRRecord * State) :=
  match editingRecord st with
  | None => None
  | Some editing =>
      if negb (truthy (trim (editName st))) then None
      else
        let updatedRecords :=
          map (fun record =>
                 if String.eqb (qrcode record) (qrcode editing)
                 then with_name record (trim (editName st))
                 else record)
              (records st) in
        Some (updatedRecords,
              {| records := updatedRecords; editModalVisible := false;
                 editingRecord := None; editName := "" |})
  end.


(** The CSV text of [exportToCSV]; [None] when there is nothing to export. *)
Definition exportToCSV (h : Host) (st : State) : option string :=
  match records st with
  | [] => None
  | _ => Some (Csv.csvContent (formatCSVTime h) (records st))
  end.

End Records.

(** ** The scanner screen *)
Module Scanner.
Import JS.

Record State := {
  qrValue : string;
  personName : string;
  showWarning : bool;
  isProcessing : bool;
  isSuccess : bool
}.

Definition initial : State :=
  {| qrValue := ""; personName := ""; showWarning := false;
     isProcessing := false; isSuccess := false |}.

(** The focus effect *)
Definition onFocus (st : State) : State :=
  {| qrValue := ""; personName := ""; showWarning := false;
     isProcessing := isProcessing st; isSuccess := false |}.

Definition setPersonName (s : string) (st : State) : State :=
  {| qrValue := qrValue st; personName := s; showWarning := showWarning st;
     isProcessing := isProcessing st; isSuccess := isSuccess st |}.

(** The timer started with a warning: [setShowWarning(false)] *)
Definition warningTimeout (st : State) : State :=
  {| qrValue := qrValue st; personName := personName st; showWarning := false;
     isProcessing := isProcessing st; isSuccess := isSuccess st |}.

(** The timer started after a registration: the form is cleared. *)
Definition successTimeout (st : State) : State :=
  {| qrValue := ""; personName := ""; showWarning := showWarning st;
     isProcessing := isProcessing st; isSuccess := false |}.

Definition getRecords (storage : list QRRecord) : list QRRecord := storage.

(** [saveRecord]: the array written back *)
Definition saveRecord (storage : list QRRecord) (record : QRRecord) : list QRRecord :=
  let existingRecords := getRecords storage in
  (existingRecords ++ [record])%list.

Inductive ScanResult :=
| ScanIgnored
| ScanDuplicate
| ScanFresh.

(** [handleQRCodeScanned] *)
Definition handleQRCodeScanned (storage : list QRRecord) (st : State) (data : string)
    : State * ScanResult :=
  if isProcessing st || negb (truthy data) || String.eqb (trim data) ""
  then (st, ScanIgnored)
  else
    let existingRecords := getRecords storage in
    let isDuplicate :=
      some (fun record => String.eqb (qrcode record) (trim data)) existingRecords in
    if isDuplicate
    then ({| qrValue := trim data; personName := personName st; showWarning := true;
             isProcessing := false; isSuccess := isSuccess st |}, ScanDuplicate)
    else ({| qrValue := trim data; personName := personName st;
             showWarning := showWarning st;
             isProcessing := false; isSuccess := isSuccess st |}, ScanFresh).

Inductive RegisterResult :=
| Registered (record : QRRecord)
| Duplicate
| Rejected
| Failed.

(** [handleRegister]; [now] is the time value of [new Date()].  The
    result is the storage, the state and what the user is shown. *)
Definition handleRegister (h : Host) (now : Z) (storage : list QRRecord) (st : State)
    : list QRRecord * State * RegisterResult :=
  if negb (truthy (trim (qrValue st))) then (storage, st, Rejected)
  else
    let finalName := or_else (trim (personName st)) "Unnamed" in
    let existingRecords := getRecords storage in
    let isDuplicate :=
      some (fun record => String.eqb (qrcode record) (qrValue st)) existingRecords in
    if isDuplicate
    then (storage,
          {| qrValue := qrValue st; personName := personName st; showWarning := true;
             isProcessing := false; isSuccess := isSuccess st |}, Duplicate)
    else
      let now := new_Date_number (Some now) in
      let utcTime := nadd (getTime now) (nmul (getTimezoneOffset h now) (Some 60000)) in
      let eatTime := new_Date_number (nadd utcTime (Some 10800000)) in
      match toISOString eatTime with
      | None =>
          (storage,
           {| qrValue := qrValue st; personName := personName st;
              showWarning := showWarning st;
              isProcessing := false; isSuccess := isSuccess st |}, Failed)
      | Some iso =>
          let newRecord :=
            {| qrcode := qrValue st; name := finalName; timestamp := iso;
               timezoneOffset := None |} in
          (saveRecord storage newRecord,
           {| qrValue := qrValue st; personName := personName st;
              showWarning := showWarning st;
              isProcessing := false; isSuccess := true |}, Registered newRecord)
      end.


End Scanner.

(** ** The two tabs over one storage *)
Module Mobile.
Import JS.

Inductive Tab := ScannerTab | RecordsTab.

Record App := {
  storage : list QRRecord;
  scanner : Scanner.State;
  recordsScreen : Records.State;
  focused : Tab
}.

Definition initial : App :=
  {| storage := []; scanner := Scanner.initial;
     recordsScreen := Records.initial; focused := ScannerTab |}.

(** What the user and the timers can do.  A handler of a screen runs only
    while its tab is focused. *)
Inductive Event :=
| Focus (t : Tab)
| Scan (data : string)
| TypeName (s : string)
| Register (now : Z)
| WarningTimeout
| SuccessTimeout
| Delete (c : string)
| OpenEdit (record : QRRecord)
| TypeEditName (s : string)
| CancelEdit
| RequestClose
| SaveEdit.

Definition with_scanner (a : App) (s : Scanner.State) : App :=
  {| storage := storage a; scanner := s; recordsScreen := recordsScreen a;
     focused := focused a |}.

Definition with_records (a : App) (s : Records.State) : App :=
  {| storage := storage a; scanner := scanner a; recordsScreen := s;
     focused := focused a |}.

Definition on_scanner (a : App) (f : Scanner.State -> Scanner.State) : App :=
  match focused a with
  | ScannerTab => with_scanner a (f (scanner a))
  | RecordsTab => a
  end.

Definition on_records (a : App) (f : Records.State -> Records.State) : App :=
  match focused a with
  | RecordsTab => with_records a (f (recordsScreen a))
  | ScannerTab => a
  end.

Definition step (h : Host) (a : App) (e : Event) : App :=
  match e with
  | Focus ScannerTab =>
      match focused a with
      | ScannerTab => a
      | RecordsTab =>
          {| storage := storage a; scanner := Scanner.onFocus (scanner a);
             recordsScreen := recordsScreen a; focused := ScannerTab |}
      end
  | Focus RecordsTab =>
      match focused a with
      | RecordsTab => a
      | ScannerTab =>
          {| storage := storage a; scanner := scanner a;
             recordsScreen := Records.loadRecords h (storage a) (recordsScreen a);
             focused := RecordsTab |}
      end
  | Scan data =>
      on_scanner a (fun s => fst (Scanner.handleQRCodeScanned (storage a) s data))
  | TypeName s => on_scanner a (Scanner.setPersonName s)
  | Register now =>
      match focused a with
      | ScannerTab =>
          let '(storage', s', _) := Scanner.handleRegister h now (storage a) (scanner a) in
          {| storage := storage'; scanner := s'; recordsScreen := recordsScreen a;
             focused := ScannerTab |}
      | RecordsTab => a
      end
  | WarningTimeout => with_scanner a (Scanner.warningTimeout (scanner a))
  | SuccessTimeout => with_scanner a (Scanner.successTimeout (scanner a))
  | Delete c =>
      match focused a with
      | RecordsTab =>
          let '(storage', s') := Records.deleteRecord c (recordsScreen a) in
          {| storage := storage'; scanner := scanner a; recordsScreen := s';
             focused := RecordsTab |}
      | ScannerTab => a
      end
  | OpenEdit record => on_records a (Records.editRecord record)
  | TypeEditName s => on_records a (Records.setEditName s)
  | CancelEdit => on_records a Records.cancelEdit
  | RequestClose => on_records a Records.requestClose
  | SaveEdit =>
      match focused a with
      | RecordsTab =>
          match Records.saveEdit (recordsScreen a) with
          | Some (storage', s') =>
              {| storage := storage'; scanner := scanner a; recordsScreen := s';
                 focused := RecordsTab |}
          | None => a
          end
      | ScannerTab => a
      end
  end.

(** The state after a sequence of events, oldest first *)
Definition run (h : Host) (a : App) (es : list Event) : App :=
  fold_left (step h) es a.

End Mobile.

(* ===================================================================== *)
(** * The web application                                                 *)
(* ===================================================================== *)

Module Web.
Import JS Format.

(** [toEATTime]; [now] is the time value of [new Date()]. *)
Definition toEATTime (h : Host) (now : Z) (timestamp : option string) : Date :=
  let date :=
    match timestamp with
    | Some ts => if truthy ts then new_Date_string h ts else new_Date_number (Some now)
    | None => new_Date_number (Some now)
    end in
  shiftToEAT h date.

Definition formatDisplayTime (h : Host) (now : Z) (timestamp : option string) : string :=
  if absent timestamp then "Unknown date"
  else displayOf h (toEATTime h now timestamp).

Definition formatCSVTime (h : Host) (now : Z) (timestamp : option string) : string :=
  if absent timestamp then "N/A"
  else csvOf h (toEATTime h now timestamp).


(** The object store [records] of [qrRegistrationDB], created with
    [keyPath: "qrcode"]: a record is stored under its own [qrcode]. *)
Definition put (record : QRRecord) (db : gmap string QRRecord) : gmap string QRRecord :=
  <[qrcode record := record]> db.

(** [store.getAll()]: the records in ascending order of their keys *)
Definition getAll (db : gmap string QRRecord) : list QRRecord :=
  (merge_sort (fun a b : string * QRRecord => Is_true (String.leb a.1 b.1))
              (map_to_list db)).*2.

Inductive RegisterResult :=
| Registered (record : QRRecord)
| Duplicate
| Rejected
| Failed.

(** [handleFormSubmission]; the two arguments are the values of the
    inputs [qrcodeValue] and [personName], [now] the time value of
    [new Date()]. *)
Definition handleFormSubmission (now : Z) (db : gmap string QRRecord)
    (qrcodeInput nameInput : string) : gmap string QRRecord * RegisterResult :=
  let qrcode_ := trim qrcodeInput in
  let name_ := or_else (trim nameInput) "Unnamed" in
  if negb (truthy qrcode_) then (db, Rejected)
  else
    match db !! qrcode_ with
    | Some existingRecord => (db, Duplicate)
    | None =>
        let now := new_Date_number (Some now) in
        match toISOString now with
        | None => (db, Failed)
        | Some iso =>
            let newRecord :=
              {| qrcode := qrcode_; name := name_; timestamp := iso;
                 timezoneOffset := Some 180 |} in
            (put newRecord db, Registered newRecord)
        end
    end.

(** [window.editRecord]; [answer] is what [prompt] returns, [None] when
    the dialog is cancelled. *)
Definition editRecord (db : gmap string QRRecord) (c : string) (answer : option string)
    : gmap string QRRecord :=
  match db !! c with
  | None => db
  | Some record =>
      match answer with
      | Some newName =>
          if negb (String.eqb (trim newName) "")
          then put (with_name record (trim newName)) db
          else db
      | None => db
      end
  end.

(** [window.deleteRecord]; [confirmed] is what [confirm] returns. *)
Definition deleteRecord (db : gmap string QRRecord) (c : string) (confirmed : bool)
    : gmap string QRRecord :=
  if confirmed then delete c db else db.

(** The records [loadRecords] renders, in order *)
Definition loadRecords (h : Host) (db : gmap string QRRecord) : list QRRecord :=
  let records := getAll db in
  sort (byTimestampDesc h) records.

(** The CSV text of [window.exportToCSV]; [None] when there is nothing to
    export. *)
Definition exportToCSV (h : Host) (now : Z) (db : gmap string QRRecord) : option string :=
  let records := getAll db in
  match records with
  | [] => None
  | _ =>
      let records := sort (byTimestampDesc h) records in
      Some (Csv.csvContent (formatCSVTime h now) records)
  end.

(** [onScanSuccess]: the new value of the input [qrcodeValue] *)
Definition onScanSuccess (qrcodeInput qrCodeMessage : string) : string :=
  if truthy qrCodeMessage && truthy (trim qrCodeMessage)
  then trim qrCodeMessage
  else qrcodeInput.

(** [updateRegisterButton]: the [disabled] flag it gives the button *)
Definition updateRegisterButton (qrcodeInput : string) : bool :=
  let qrValue := trim qrcodeInput in
  negb (truthy qrValue).

Inductive Event :=
| Submit (now : Z) (qrcodeInput nameInput : string)
| Edit (c : string) (answer : option string)
| Delete (c : string) (confirmed : bool).

Definition step (db : gmap string QRRecord) (e : Event) : gmap string QRRecord :=
  match e with
  | Submit now q n => fst (handleFormSubmission now db q n)
  | Edit c answer => editRecord db c answer
  | Delete c confirmed => deleteRecord db c confirmed
  end.

Definition run (db : gmap string QRRecord) (es : list Event) : gmap string QRRecord :=
  fold_left step es db.

End Web.

(* ===================================================================== *)
(** * The vocabulary of the statements                                    *)
(* ===================================================================== *)

(** The time value a record is sorted by *)
Definition timeOf (h : JS.Host) (r : QRRecord) : JS.number :=
  JS.getTime (JS.new_Date_string h (timestamp r)).

(** [a] may stand before [b] in a list sorted newest first. *)
Definition notOlder (h : JS.Host) (a b : QRRecord) : Prop :=
  exists ta tb, timeOf h a = Some ta /\ timeOf h b = Some tb /\ tb <= ta.

(** The codes of a collection, in order *)
Definition codes (l : list QRRecord) : list string := map qrcode l.

(** The clock readings at which [handleRegister] can build its timestamp:
    the date and the shifted date are both within the time range. *)
Definition registrable (h : JS.Host) (now : Z) : Prop :=
  Z.abs now <= JS.maxTime /\
  Z.abs (now + JS.tzOffset h now * 60000 + 10800000) <= JS.maxTime.

Record MobileInv (a : Mobile.App) : Prop := {
  inv_codes : NoDup (codes (Mobile.storage a));
  inv_codes_screen : NoDup (codes (Records.records (Mobile.recordsScreen a)));
  inv_names : Forall (fun r => name r <> "") (Mobile.storage a);
  inv_names_screen :
    Forall (fun r => name r <> "") (Records.records (Mobile.recordsScreen a));
  inv_idle : Scanner.isProcessing (Mobile.scanner a) = false;
  inv_trimmed :
    JS.trim (Scanner.qrValue (Mobile.scanner a)) = Scanner.qrValue (Mobile.scanner a);
  inv_sync :
    Mobile.focused a = Mobile.RecordsTab ->
    Records.records (Mobile.recordsScreen a) ≡ₚ Mobile.storage a
}.

(** The timestamp of [r] is what [toISOString] writes for some valid time
    value. *)
Definition wellStamped (r : QRRecord) : Prop :=
  exists t, Z.abs t <= JS.maxTime /\ JS.toISOString (Some t) = Some (timestamp r).

(** The code and the name of [r] are trimmed and not empty. *)
Definition wellFormed (r : QRRecord) : Prop :=
  qrcode r <> "" /\ JS.trim (qrcode r) = qrcode r /\
  name r <> "" /\ JS.trim (name r) = name r.

(** [r'] is the record [r] under a possibly different name. *)
Definition sameOrigin (r r' : QRRecord) : Prop :=
  qrcode r' = qrcode r /\ timestamp r' = timestamp r /\
  timezoneOffset r' = timezoneOffset r.

(** Every record sits under its own code and has a name. *)
Definition WebInv (db : gmap string QRRecord) : Prop :=
  forall c r, db !! c = Some r -> qrcode r = c /\ name r <> "".

(** The number a string of decimal digits denotes, read from the left
    onto [acc] *)
Fixpoint uint_value (acc : Z) (d : Decimal.uint) : Z :=
  match d with
  | Decimal.Nil => acc
  | Decimal.D0 d' => uint_value (10 * acc + 0) d'
  | Decimal.D1 d' => uint_value (10 * acc + 1) d'
  | Decimal.D2 d' => uint_value (10 * acc + 2) d'
  | Decimal.D3 d' => uint_value (10 * acc + 3) d'
  | Decimal.D4 d' => uint_value (10 * acc + 4) d'
  | Decimal.D5 d' => uint_value (10 * acc + 5) d'
  | Decimal.D6 d' => uint_value (10 * acc + 6) d'
  | Decimal.D7 d' => uint_value (10 * acc + 7) d'
  | Decimal.D8 d' => uint_value (10 * acc + 8) d'
  | Decimal.D9 d' => uint_value (10 * acc + 9) d'
  end.

(** [s.includes(c)] for a one-character [c] *)
Fixpoint includes (c : ascii) (s : string) : bool :=
  match s with
  | EmptyString => false
  | String d s' => Ascii.eqb d c || includes c s'
  end.

(** The record of the example: code A, double quote, B and name Jo,e *)
Definition exampleRecord (T : string) : QRRecord :=
  {| qrcode := String "A" (String Csv.dquote "B"); name := "Jo,e"; timestamp := T;
     timezoneOffset := None |}.


(* ===================================================================== *)
(** * CSV: what the specification asks of the text                        *)
(* ===================================================================== *)

Module CsvSpec.
Import JS Csv.

(** Every double quote written twice *)
Fixpoint doubled (s : string) : string :=
  match s with
  | EmptyString => EmptyString
  | String c s' =>
      if Ascii.eqb c dquote then String dquote (String dquote (doubled s'))
      else String c (doubled s')
  end.

(** A field wrapped in double quotes, the double quotes inside it doubled *)
Definition quoted (s : string) : string :=
  String dquote (doubled s +:+ String dquote EmptyString).

(** The three quoted fields of a record, between commas *)
Definition rowOf (formatCsv : option string -> string) (r : QRRecord) : string :=
  quoted (name r) +:+ "," +:+ quoted (qrcode r) +:+ ","
  +:+ quoted (formatCsv (Some (timestamp r))).

Definition cells (formatCsv : option string -> string) (r : QRRecord) : list string :=
  [name r; qrcode r; formatCsv (Some (timestamp r))].

(** A reader of CSV text: fields between commas, rows between line feeds;
    a field may stand between double quotes, where a doubled double quote
    is one double quote and commas and line feeds are data. *)
Inductive Mode := Plain | InQuotes | AfterQuote.

Definition snoc (s : string) (c : ascii) : string := s +:+ String c EmptyString.

Fixpoint readCsv (m : Mode) (field : string) (row : list string)
    (rows : list (list string)) (s : string) : option (list (list string)) :=
  match s with
  | EmptyString =>
      match m, field, row with
      | InQuotes, _, _ => None
      | Plain, EmptyString, [] => Some rows
      | _, _, _ => Some (rows ++ [row ++ [field]])%list
      end
  | String c s' =>
      match m with
      | Plain =>
          if Ascii.eqb c dquote then
            match field with
            | EmptyString => readCsv InQuotes EmptyString row rows s'
            | _ => None
            end
          else if Ascii.eqb c "," then readCsv Plain EmptyString (row ++ [field])%list rows s'
          else if Ascii.eqb c "010" then
            readCsv Plain EmptyString [] (rows ++ [row ++ [field]])%list s'
          else readCsv Plain (snoc field c) row rows s'
      | InQuotes =>
          if Ascii.eqb c dquote then readCsv AfterQuote field row rows s'
          else readCsv InQuotes (snoc field c) row rows s'
      | AfterQuote =>
          if Ascii.eqb c dquote then readCsv InQuotes (snoc field dquote) row rows s'
          else if Ascii.eqb c "," then readCsv Plain EmptyString (row ++ [field])%list rows s'
          else if Ascii.eqb c "010" then
            readCsv Plain EmptyString [] (rows ++ [row ++ [field]])%list s'
          else None
      end
  end.

Definition parseCsv (s : string) : option (list (list string)) :=
  readCsv Plain EmptyString [] [] s.

Definition headerCells : list string := ["Name"; "QR Code"; "Registration Date (EAT)"].

End CsvSpec.

(* ===================================================================== *)
(** * Facts about the runtime                                             *)
(* ===================================================================== *)

Section StringFacts.
Import JS.

Lemma truthy_true (s : string) : truthy s = true <-> s <> "".
Proof. destruct s; simpl; split; intros H; done. Qed.

Lemma truthy_false (s : string) : truthy s = false <-> s = "".
Proof. destruct s; simpl; split; intros H; done. Qed.

Lemma or_else_nonempty (a b : string) : b <> "" -> or_else a b <> "".
Proof.
  intros Hb. unfold or_else. destruct (truthy a) eqn:Ha; [|done].
  by apply truthy_true.
Qed.

Lemma or_else_self (a : string) : or_else a "" = a.
Proof. by destruct a. Qed.

Lemma trimStart_head (s : string) :
  trimStart s = "" \/ exists c t, trimStart s = String c t /\ isWhiteSpace c = false.
Proof.
  induction s as [|c s IH]; simpl; [by left|].
  destruct (isWhiteSpace c) eqn:Hc; [done|]. right. eauto.
Qed.

Lemma trimEnd_head (c : ascii) (t : string) :
  isWhiteSpace c = false -> exists t', trimEnd (String c t) = String c t'.
Proof.
  intros Hc. simpl. destruct (trimEnd t); [rewrite Hc|]; eauto.
Qed.

Lemma trimEnd_idempotent (s : string) : trimEnd (trimEnd s) = trimEnd s.
Proof.
  induction s as [|c s IH]; simpl; [done|].
  destruct (trimEnd s) as [|d t] eqn:Ht.
  - destruct (isWhiteSpace c) eqn:Hc; simpl; [done|]. by rewrite Hc.
  - change (trimEnd (String c (String d t))) with
      (match trimEnd (String d t) with
       | "" => if isWhiteSpace c then "" else String c ""
       | String _ _ as u => String c u
       end).
    by rewrite IH.
Qed.

(** Trimming a trimmed string changes nothing. *)
Lemma trim_idempotent (s : string) : trim (trim s) = trim s.
Proof.
  unfold trim. destruct (trimStart_head s) as [->|(c & t & -> & Hc)]; [done|].
  destruct (trimEnd_head c t Hc) as [t' Ht']. rewrite Ht'. simpl. rewrite Hc.
  by rewrite <- Ht', trimEnd_idempotent.
Qed.

Lemma append_cons (c : ascii) (a b : string) :
  String c a +:+ b = String c (a +:+ b).
Proof. reflexivity. Qed.

Lemma append_nil_r (s : string) : s +:+ "" = s.
Proof. induction s as [|c s IH]; [done|]. by rewrite append_cons, IH. Qed.

Lemma append_assoc (a b c : string) : (a +:+ b) +:+ c = a +:+ (b +:+ c).
Proof. induction a as [|x a IH]; [done|]. by rewrite !append_cons, IH. Qed.

Lemma length_append (a b : string) :
  String.length (a +:+ b) = (String.length a + String.length b)%nat.
Proof. induction a as [|x a IH]; [done|]. rewrite append_cons. simpl. by rewrite IH. Qed.

Lemma endsWith_append (suffix a : string) : endsWith suffix (a +:+ suffix) = true.
Proof.
  induction a as [|c a IH].
  - change ("" +:+ suffix) with suffix. destruct suffix; simpl; by rewrite ?String.eqb_refl, ?Ascii.eqb_refl.
  - rewrite append_cons. cbn [endsWith].
    by destruct (String.eqb (String c (a +:+ suffix)) suffix).
Qed.

End StringFacts.

Section RuntimeExamples.
Import JS.

Example trim_Alice : trim "  Alice  " = "Alice".
Proof. reflexivity. Qed.

Example trim_blank : trim (String "009" (String "010" " ")) = "".
Proof. reflexivity. Qed.

Example padStart_short : padStart 2 "0" "7" = "07" /\ padStart 2 "0" "NaN" = "NaN".
Proof. split; reflexivity. Qed.

Example toISOString_epoch : toISOString (Some 0) = Some "1970-01-01T00:00:00.000Z".
Proof. reflexivity. Qed.

Example toISOString_leap_day :
  toISOString (Some 951782400123) = Some "2000-02-29T00:00:00.123Z".
Proof. reflexivity. Qed.

Example toISOString_before_epoch :
  toISOString (Some (-1)) = Some "1969-12-31T23:59:59.999Z".
Proof. reflexivity. Qed.

Example toISOString_last : toISOString (Some maxTime) = Some "+275760-09-13T00:00:00.000Z".
Proof. reflexivity. Qed.

Example isoParse_new_year :
  isoParse "2024-01-01T00:00:00Z" = Some 1704067200000 /\
  isoParse "2024-01-01T00:00:00.000Z" = Some 1704067200000.
Proof. split; reflexivity. Qed.

Example isoParse_illegal :
  isoParse "2023-02-29T00:00:00Z" = NaN /\ isoParse "not a date" = NaN.
Proof. split; reflexivity. Qed.

End RuntimeExamples.

Section TimeFacts.
Import JS.

Lemma HourFromTime_range (t : Z) : 0 <= HourFromTime t <= 23.
Proof. unfold HourFromTime. pose proof (Z.mod_pos_bound (t / msPerHour) 24). lia. Qed.

Lemma MinFromTime_range (t : Z) : 0 <= MinFromTime t <= 59.
Proof. unfold MinFromTime. pose proof (Z.mod_pos_bound (t / msPerMinute) 60). lia. Qed.

(** [YearFromTime t] is the year the day of [t] falls in. *)
Lemma YearFromTime_spec (t : Z) :
  DayFromYear (YearFromTime t) <= Day t < DayFromYear (YearFromTime t + 1).
Proof.
  unfold YearFromTime. set (d := Day t). clearbody d.
  set (y := 1970 + 400 * d / 146097).
  assert (Hy : 146097 * (y - 1970) <= 400 * d < 146097 * (y - 1970) + 146097).
  { subst y. pose proof (Z.div_mod (400 * d) 146097 ltac:(lia)).
    pose proof (Z.mod_pos_bound (400 * d) 146097 ltac:(lia)). lia. }
  clearbody y.
  destruct (Z.ltb_spec d (DayFromYear y)) as [H1|H1].
  - replace (y - 1 + 1) with y by lia. split; [|done].
    unfold DayFromYear in *. Z.div_mod_to_equations. lia.
  - destruct (Z.leb_spec (DayFromYear (y + 1)) d) as [H2|H2]; [|lia].
    split; [done|].
    unfold DayFromYear in *. Z.div_mod_to_equations. lia.
Qed.

Lemma DayFromYear_succ (y : Z) : DayFromYear (y + 1) = DayFromYear y + DaysInYear y.
Proof.
  unfold DayFromYear, DaysInYear, isLeapYear.
  destruct (Z.eqb_spec (y mod 4) 0), (Z.eqb_spec (y mod 100) 0),
    (Z.eqb_spec (y mod 400) 0); simpl; Z.div_mod_to_equations; lia.
Qed.

Lemma DayWithinYear_range (t : Z) :
  0 <= DayWithinYear t < DaysInYear (YearFromTime t).
Proof.
  unfold DayWithinYear. pose proof (YearFromTime_spec t) as H.
  rewrite DayFromYear_succ in H. lia.
Qed.

Lemma TimeClip_in_range (t : Z) : Z.abs t <= maxTime -> TimeClip (Some t) = Some t.
Proof. intros H. simpl. destruct (Z.leb_spec (Z.abs t) maxTime); [done|lia]. Qed.

Lemma TimeClip_Some (x : number) (t : Z) :
  TimeClip x = Some t -> x = Some t /\ Z.abs t <= maxTime.
Proof.
  destruct x as [u|]; simpl; [|done].
  destruct (Z.leb_spec (Z.abs u) maxTime); [|done]. intros [= ->]. done.
Qed.

End TimeFacts.

(* ===================================================================== *)
(** * Reading back what [toISOString] writes                              *)
(* ===================================================================== *)

(* ===================================================================== *)

Section DigitFacts.
Import JS.

Lemma digits_string_of_uint (d : Decimal.uint) (acc : Z) (rest : string) :
  digits (Decimal.nb_digits d) acc (NilEmpty.string_of_uint d +:+ rest)
  = Some (uint_value acc d, rest).
Proof.
  revert acc. induction d as [|d IHd|d IHd|d IHd|d IHd|d IHd|d IHd|d IHd|d IHd|d IHd|d IHd]; intros acc; [done|..];
    cbn [Decimal.nb_digits NilEmpty.string_of_uint uint_value];
    rewrite append_cons; cbn [digits]; apply IHd.
Qed.

Lemma uint_value_of_uint_acc (d : Decimal.uint) (acc : positive) :
  Z.pos (Pos.of_uint_acc d acc) = uint_value (Z.pos acc) d.
Proof.
  revert acc. induction d as [|d IHd|d IHd|d IHd|d IHd|d IHd|d IHd|d IHd|d IHd|d IHd|d IHd]; intros acc; [done|..];
    cbn [Pos.of_uint_acc uint_value]; rewrite IHd; f_equal; lia.
Qed.

Lemma uint_value_of_uint (d : Decimal.uint) : Z.of_N (Pos.of_uint d) = uint_value 0 d.
Proof.
  induction d as [|d IHd|d IHd|d IHd|d IHd|d IHd|d IHd|d IHd|d IHd|d IHd|d IHd]; [done|..]; cbn [Pos.of_uint uint_value]; [exact IHd|..];
    cbn [Z.of_N]; by rewrite uint_value_of_uint_acc.
Qed.

Lemma uint_value_to_uint (p : positive) : uint_value 0 (Pos.to_uint p) = Z.pos p.
Proof. by rewrite <- uint_value_of_uint, Unsigned.of_to. Qed.

Lemma uint_value_lower (d : Decimal.uint) (acc : Z) :
  0 <= acc -> acc * 10 ^ Z.of_nat (Decimal.nb_digits d) <= uint_value acc d.
Proof.
  revert acc. induction d as [|d IHd|d IHd|d IHd|d IHd|d IHd|d IHd|d IHd|d IHd|d IHd|d IHd]; intros acc Hacc;
    cbn [Decimal.nb_digits uint_value]; [simpl; lia|..];
    rewrite Nat2Z.inj_succ, Z.pow_succ_r by lia;
    (etransitivity; [|apply IHd; lia]);
    pose proof (Z.pow_nonneg 10 (Z.of_nat (Decimal.nb_digits d)) ltac:(lia)); nia.
Qed.

Lemma nzhead_to_uint (p : positive) : Decimal.nzhead (Pos.to_uint p) = Pos.to_uint p.
Proof.
  pose proof (Unsigned.to_of (Pos.to_uint p)) as H.
  rewrite Unsigned.of_to in H. simpl in H.
  pose proof (Unsigned.to_uint_nonzero p) as Hnz.
  unfold Decimal.unorm in H. destruct (Decimal.nzhead (Pos.to_uint p)); congruence.
Qed.

Lemma nb_digits_to_uint (p : positive) (n : nat) :
  Z.pos p < 10 ^ Z.of_nat n -> (Decimal.nb_digits (Pos.to_uint p) <= n)%nat.
Proof.
  intros Hp. pose proof (uint_value_to_uint p) as Hv.
  pose proof (nzhead_to_uint p) as Hh. pose proof (Unsigned.to_uint_nonnil p) as Hnil.
  destruct (Pos.to_uint p) as [|d|d|d|d|d|d|d|d|d|d] eqn:E; [done|..].
  { exfalso. simpl in Hh. pose proof (nb_digits_nzhead d) as Hle.
    rewrite Hh in Hle. simpl in Hle. lia. }
  all: cbn [uint_value] in Hv;
    match type of Hv with uint_value ?k ?d' = _ =>
      pose proof (uint_value_lower d' k ltac:(lia)) as Hlow end;
    cbn [Decimal.nb_digits];
    destruct (Nat.le_gt_cases (S (Decimal.nb_digits d)) n) as [?|Hgt]; [done|exfalso];
    assert (10 ^ Z.of_nat n <= 10 ^ Z.of_nat (Decimal.nb_digits d))
      by (apply Z.pow_le_mono_r; lia);
    pose proof (Z.pow_pos_nonneg 10 (Z.of_nat (Decimal.nb_digits d)) ltac:(lia) ltac:(lia));
    nia.
Qed.

Lemma length_string_of_uint (d : Decimal.uint) :
  String.length (NilEmpty.string_of_uint d) = Decimal.nb_digits d.
Proof. induction d; simpl; congruence. Qed.

Lemma digits_zeros (k m : nat) (s : string) :
  digits (k + m) 0 (repeat_char "0" k +:+ s) = digits m 0 s.
Proof.
  induction k as [|k IH]; [done|].
  change (digits (S k + m) 0 (repeat_char "0" (S k) +:+ s))
    with (digits (k + m) 0 (repeat_char "0" k +:+ s)).
  exact IH.
Qed.

(** A number below [10 ^ n], printed and padded to [n] digits, is read
    back by [digits n]. *)
Lemma digits_padStart (n : nat) (v : Z) (rest : string) :
  (1 <= n)%nat -> 0 <= v < 10 ^ Z.of_nat n ->
  digits n 0 (padStart n "0" (Z_toString v) +:+ rest) = Some (v, rest).
Proof.
  intros Hn Hv. unfold padStart, Z_toString.
  assert (Hgen : forall d, (Decimal.nb_digits d <= n)%nat -> d <> Decimal.Nil ->
    digits n 0 ((repeat_char "0" (n - String.length (NilZero.string_of_uint d))
                 +:+ NilZero.string_of_uint d) +:+ rest)
    = Some (uint_value 0 d, rest)).
  { intros d Hd Hnil.
    assert (E : NilZero.string_of_uint d = NilEmpty.string_of_uint d) by (by destruct d).
    rewrite E, length_string_of_uint, append_assoc.
    replace n with ((n - Decimal.nb_digits d) + Decimal.nb_digits d)%nat at 1 by lia.
    rewrite digits_zeros. apply digits_string_of_uint. }
  destruct v as [|p|p]; [| |lia].
  - change (NilZero.string_of_int (Z.to_int 0))
      with (NilZero.string_of_uint (Decimal.D0 Decimal.Nil)).
    rewrite Hgen; [done|simpl; lia|done].
  - change (NilZero.string_of_int (Z.to_int (Z.pos p)))
      with (NilZero.string_of_uint (Pos.to_uint p)).
    rewrite Hgen; [by rewrite uint_value_to_uint| |apply Unsigned.to_uint_nonnil].
    apply nb_digits_to_uint. lia.
Qed.

End DigitFacts.

Section IsoFacts.
Import JS.

Lemma SecFromTime_range (t : Z) : 0 <= SecFromTime t <= 59.
Proof. unfold SecFromTime. pose proof (Z.mod_pos_bound (t / msPerSecond) 60). lia. Qed.

Lemma msFromTime_range (t : Z) : 0 <= msFromTime t <= 999.
Proof. unfold msFromTime, msPerSecond. pose proof (Z.mod_pos_bound t 1000). lia. Qed.

Lemma InLeapYear_cases (t : Z) :
  (InLeapYear t = 0 \/ InLeapYear t = 1) /\
  DaysInYear (YearFromTime t) = 365 + InLeapYear t.
Proof. unfold InLeapYear, DaysInYear. destruct (isLeapYear _); lia. Qed.

(** [MonthFromTime t] is the month the day of [t] falls in. *)
Lemma MonthFromTime_spec (t : Z) :
  0 <= MonthFromTime t <= 11 /\
  monthStart (InLeapYear t) (MonthFromTime t) <= DayWithinYear t
    < monthStart (InLeapYear t) (MonthFromTime t + 1).
Proof.
  pose proof (DayWithinYear_range t) as Hd.
  destruct (InLeapYear_cases t) as [HL HY]. rewrite HY in Hd.
  remember (MonthFromTime t) as m eqn:Em. unfold MonthFromTime in Em. cbv zeta in Em.
  revert Hd HL Em. generalize (DayWithinYear t) (InLeapYear t). intros d L Hd HL Em.
  assert (HL' : 0 <= L <= 1) by lia. clear HL.
  repeat match type of Em with
         | context [if ?x <? ?y then _ else _] => destruct (Z.ltb_spec x y)
         end; subst m; simpl in *; lia.
Qed.

Lemma DateFromTime_range (t : Z) :
  1 <= DateFromTime t <= DaysInMonth (YearFromTime t) (MonthFromTime t + 1) /\
  DateFromTime t <= 31.
Proof.
  destruct (MonthFromTime_spec t) as [Hm Hd].
  destruct (InLeapYear_cases t) as [HL _].
  unfold DateFromTime, DaysInMonth. fold (InLeapYear t).
  replace (MonthFromTime t + 1 - 1) with (MonthFromTime t) by lia.
  assert (Hcases : MonthFromTime t = 0 \/ MonthFromTime t = 1 \/ MonthFromTime t = 2
          \/ MonthFromTime t = 3 \/ MonthFromTime t = 4 \/ MonthFromTime t = 5
          \/ MonthFromTime t = 6 \/ MonthFromTime t = 7 \/ MonthFromTime t = 8
          \/ MonthFromTime t = 9 \/ MonthFromTime t = 10 \/ MonthFromTime t = 11) by lia.
  revert Hd. generalize (DayWithinYear t). intros d Hd.
  destruct HL as [HL|HL]; rewrite HL in *;
    repeat (destruct Hcases as [E|Hcases]; [rewrite E in *; simpl in *; lia|]);
    rewrite Hcases in *; simpl in *; lia.
Qed.

(** The fields of a time value give the time value back. *)
Lemma MakeDate_fields (t : Z) :
  MakeDate (MakeDay (YearFromTime t) (MonthFromTime t) (DateFromTime t))
           (MakeTime (HourFromTime t) (MinFromTime t) (SecFromTime t) (msFromTime t))
  = t.
Proof.
  unfold MakeDate, MakeDay, MakeTime, DateFromTime. fold (InLeapYear t).
  unfold DayWithinYear, Day, HourFromTime, MinFromTime, SecFromTime, msFromTime,
    msPerDay, msPerHour, msPerMinute, msPerSecond.
  generalize (DayFromYear (YearFromTime t))
    (monthStart (InLeapYear t) (MonthFromTime t)). intros a b.
  Z.div_mod_to_equations. lia.
Qed.

Lemma YearFromTime_bound (t : Z) :
  Z.abs t <= maxTime -> -271821 <= YearFromTime t <= 275760.
Proof.
  intros Ht. pose proof (YearFromTime_spec t) as H.
  assert (Hday : -100000000 <= Day t <= 100000000).
  { unfold Day, msPerDay, maxTime in *. Z.div_mod_to_equations. lia. }
  revert H. generalize (YearFromTime t). intros y H.
  unfold DayFromYear in H. Z.div_mod_to_equations. lia.
Qed.

Lemma expect_here (c : ascii) (rest : string) :
  expect c (String c "" +:+ rest) = Some rest.
Proof. rewrite append_cons. simpl. by rewrite Ascii.eqb_refl. Qed.

Lemma parseYear_digits (s : string) (x : Z * string) :
  digits 4 0 s = Some x -> parseYear s = Some x.
Proof.
  destruct s as [|c s]; [done|]. intros H. unfold parseYear.
  destruct (Ascii.eqb_spec c "+") as [->|_]; [done|].
  destruct (Ascii.eqb_spec c "-") as [->|_]; [done|]. exact H.
Qed.

Lemma parseYear_isoYear (y : Z) (rest : string) :
  -999999 <= y <= 999999 ->
  parseYear (isoYear y +:+ rest) = Some (y, rest).
Proof.
  intros Hy. unfold isoYear.
  destruct (Z.leb_spec 0 y) as [H0|H0], (Z.leb_spec y 9999) as [H1|H1]; simpl andb.
  - apply parseYear_digits, (digits_padStart 4); simpl; lia.
  - destruct (Z.ltb_spec y 0); [lia|].
    rewrite append_assoc, append_cons. change ("" +:+ ?x) with x.
    cbn [parseYear]. change (Ascii.eqb "+" "+") with true. cbn iota.
    rewrite Z.abs_eq by lia. apply (digits_padStart 6); simpl; lia.
  - destruct (Z.ltb_spec y 0); [|lia].
    rewrite append_assoc, append_cons. change ("" +:+ ?x) with x.
    cbn [parseYear]. change (Ascii.eqb "-" "+") with false.
    change (Ascii.eqb "-" "-") with true. cbn iota.
    rewrite (digits_padStart 6) by (simpl; lia). cbn [mbind option_bind].
    destruct (Z.eqb_spec (Z.abs y) 0); [lia|]. do 2 f_equal. lia.
  - lia.
Qed.

Lemma parseMillis_here (v : Z) (rest : string) :
  0 <= v <= 999 ->
  parseMillis ("." +:+ padStart 3 "0" (Z_toString v) +:+ rest) = Some (v, rest).
Proof.
  intros Hv. rewrite append_cons. change ("" +:+ ?x) with x. cbn [parseMillis].
  change (Ascii.eqb "." ".") with true. cbn iota.
  apply (digits_padStart 3); simpl; lia.
Qed.

Lemma digits_pad2 (v : Z) (rest : string) :
  0 <= v <= 99 -> digits 2 0 (pad2 v +:+ rest) = Some (v, rest).
Proof. intros Hv. apply (digits_padStart 2); simpl; lia. Qed.

(** [toISOString] writes every valid time value, and [isoParse] reads it
    back. *)
Lemma isoParse_toISOString (t : Z) :
  Z.abs t <= maxTime ->
  exists s, toISOString (Some t) = Some s /\ isoParse s = Some t.
Proof.
  intros Ht. eexists. split; [reflexivity|].
  pose proof (YearFromTime_bound t Ht) as Hy.
  destruct (MonthFromTime_spec t) as [Hm _].
  destruct (DateFromTime_range t) as [Hd Hd31].
  pose proof (HourFromTime_range t) as Hh. pose proof (MinFromTime_range t) as Hmi.
  pose proof (SecFromTime_range t) as Hs. pose proof (msFromTime_range t) as Hms.
  unfold isoParse.
  rewrite parseYear_isoYear by lia. cbn [mbind option_bind].
  rewrite expect_here. cbn [mbind option_bind].
  rewrite digits_pad2 by lia. cbn [mbind option_bind].
  rewrite expect_here. cbn [mbind option_bind].
  rewrite digits_pad2 by lia. cbn [mbind option_bind].
  rewrite expect_here. cbn [mbind option_bind].
  rewrite digits_pad2 by lia. cbn [mbind option_bind].
  rewrite expect_here. cbn [mbind option_bind].
  rewrite digits_pad2 by lia. cbn [mbind option_bind].
  rewrite expect_here. cbn [mbind option_bind].
  rewrite digits_pad2 by lia. cbn [mbind option_bind].
  rewrite parseMillis_here by lia. cbn [mbind option_bind].
  rewrite <- (append_nil_r "Z"), expect_here. cbn [mbind option_bind truthy].
  replace (MonthFromTime t + 1 - 1) with (MonthFromTime t) by lia.
  rewrite MakeDate_fields.
  assert (Hlegal : (1 <=? MonthFromTime t + 1) && (MonthFromTime t + 1 <=? 12)
                   && (1 <=? DateFromTime t)
                   && (DateFromTime t <=? DaysInMonth (YearFromTime t) (MonthFromTime t + 1))
                   && (HourFromTime t <=? 23) && (MinFromTime t <=? 59)
                   && (SecFromTime t <=? 59) = true).
  { repeat (apply andb_true_iff; split); apply Z.leb_le; lia. }
  rewrite Hlegal. by apply TimeClip_in_range.
Qed.

End IsoFacts.

(* ===================================================================== *)
(** * Formatting: the shift to East Africa Time                           *)
(* ===================================================================== *)

Section FormatFacts.
Import JS Format.

Lemma conforming_fixedHost (off : Z) : conforming (fixedHost off).
Proof. intros s t H. exact H. Qed.

Lemma shiftToEAT_Some (h : Host) (t : Z) :
  shiftToEAT h (Some t) = TimeClip (Some (t + tzOffset h t * 60000 + 10800000)).
Proof. reflexivity. Qed.

Lemma shiftToEAT_NaN (h : Host) : shiftToEAT h NaN = NaN.
Proof. reflexivity. Qed.

(** On a host whose offset is the same at the shifted date as at the
    date itself, in particular on a host of constant offset, the local
    fields of the shifted date are the UTC fields three hours later. *)
Lemma local_field_shift (f : Z -> Z) (h : Host) (t : Z) :
  let e := t + tzOffset h t * 60000 + 10800000 in
  Z.abs e <= maxTime ->
  tzOffset h e = tzOffset h t ->
  local_field f h (shiftToEAT h (Some t)) = Some (f (t + 10800000)).
Proof.
  intros e He Hoff. rewrite shiftToEAT_Some. fold e.
  rewrite (TimeClip_in_range e He). unfold local_field, LocalTime.
  rewrite Hoff. do 2 f_equal. unfold e, msPerMinute. lia.
Qed.

(** The formatted texts in terms of a date already shifted *)
Lemma displayOf_shift (h : Host) (t : Z) :
  let e := t + tzOffset h t * 60000 + 10800000 in
  Z.abs e <= maxTime ->
  tzOffset h e = tzOffset h t ->
  displayOf h (shiftToEAT h (Some t)) = displayOf (fixedHost 0) (Some (t + 10800000)).
Proof.
  intros e He Hoff. unfold displayOf, getMonth, getDate, getFullYear, getHours, getMinutes.
  rewrite !(local_field_shift _ h t He Hoff).
  unfold local_field, LocalTime. simpl tzOffset.
  by replace (t + 10800000 - 0 * msPerMinute) with (t + 10800000) by lia.
Qed.

Lemma csvOf_shift (h : Host) (t : Z) :
  let e := t + tzOffset h t * 60000 + 10800000 in
  Z.abs e <= maxTime ->
  tzOffset h e = tzOffset h t ->
  csvOf h (shiftToEAT h (Some t)) = csvOf (fixedHost 0) (Some (t + 10800000)).
Proof.
  intros e He Hoff.
  unfold csvOf, getMonth, getDate, getFullYear, getHours, getMinutes, getSeconds.
  rewrite !(local_field_shift _ h t He Hoff).
  unfold local_field, LocalTime. simpl tzOffset.
  by replace (t + 10800000 - 0 * msPerMinute) with (t + 10800000) by lia.
Qed.

(** What the mobile formatters return on a string the host parses *)
Lemma Records_formatDisplayTime_valid (h : Host) (ts : string) (t : Z) :
  ts <> "" -> new_Date_string h ts = Some t ->
  Records.formatDisplayTime h (Some ts) = displayOf h (shiftToEAT h (Some t)).
Proof.
  intros Hts Ht. unfold Records.formatDisplayTime.
  apply truthy_true in Hts. by rewrite Hts, Ht.
Qed.

Lemma Records_formatCSVTime_valid (h : Host) (ts : string) (t : Z) :
  ts <> "" -> new_Date_string h ts = Some t ->
  Records.formatCSVTime h (Some ts) = csvOf h (shiftToEAT h (Some t)).
Proof.
  intros Hts Ht. unfold Records.formatCSVTime.
  apply truthy_true in Hts. by rewrite Hts, Ht.
Qed.

(** What the web formatters return on any string that is not empty *)
Lemma Web_formatDisplayTime_present (h : Host) (now : Z) (ts : string) :
  ts <> "" ->
  Web.formatDisplayTime h now (Some ts) = displayOf h (shiftToEAT h (new_Date_string h ts)).
Proof.
  intros Hts. unfold Web.formatDisplayTime, Web.toEATTime, absent.
  apply truthy_true in Hts. by rewrite Hts.
Qed.

Lemma Web_formatCSVTime_present (h : Host) (now : Z) (ts : string) :
  ts <> "" ->
  Web.formatCSVTime h now (Some ts) = csvOf h (shiftToEAT h (new_Date_string h ts)).
Proof.
  intros Hts. unfold Web.formatCSVTime, Web.toEATTime, absent.
  apply truthy_true in Hts. by rewrite Hts.
Qed.

(** The mobile formatters on absent, empty and unparseable input *)
Lemma Records_formatters_absent (h : Host) :
  Records.formatDisplayTime h None = "Unknown date" /\
  Records.formatDisplayTime h (Some "") = "Unknown date" /\
  Records.formatCSVTime h None = "N/A" /\
  Records.formatCSVTime h (Some "") = "N/A".
Proof. done. Qed.

Lemma Records_formatters_invalid (h : Host) (ts : string) :
  ts <> "" -> new_Date_string h ts = NaN ->
  Records.formatDisplayTime h (Some ts) = "Invalid date" /\
  Records.formatCSVTime h (Some ts) = "N/A".
Proof.
  intros Hts Ht. unfold Records.formatDisplayTime, Records.formatCSVTime.
  apply truthy_true in Hts. by rewrite Hts, Ht.
Qed.

Lemma Web_formatters_absent (h : Host) (now : Z) :
  Web.formatDisplayTime h now None = "Unknown date" /\
  Web.formatDisplayTime h now (Some "") = "Unknown date" /\
  Web.formatCSVTime h now None = "N/A" /\
  Web.formatCSVTime h now (Some "") = "N/A".
Proof. done. Qed.

(** The web formatters have no validity test: an unparseable string is
    formatted field by field from NaN. *)
Lemma Web_formatters_invalid (h : Host) (now : Z) (ts : string) :
  ts <> "" -> new_Date_string h ts = NaN ->
  Web.formatDisplayTime h now (Some ts) = "undefined NaN, NaN, 12:NaN AM EAT" /\
  Web.formatCSVTime h now (Some ts) = "NaN/NaN/NaN NaN:NaN:NaN EAT".
Proof.
  intros Hts Ht.
  rewrite Web_formatDisplayTime_present, Web_formatCSVTime_present by done.
  by rewrite Ht.
Qed.

Lemma getHours_range (h : Host) (d : Date) :
  getHours h d = NaN \/ exists a, getHours h d = Some a /\ 0 <= a <= 23.
Proof.
  destruct d as [t|]; [right|by left].
  eexists. split; [done|]. apply HourFromTime_range.
Qed.

(** The 12-hour conversion on the hours a date can have *)
Lemma hour12_cases (a : Z) :
  0 <= a <= 23 ->
  hour12 (Some a) = Some (if a =? 0 then 12 else if a <=? 12 then a else a - 12) /\
  ampm (Some a) = (if a <? 12 then "AM" else "PM").
Proof.
  intros Ha. unfold hour12, ampm, nge, nrem, ntruthy.
  assert (Hcases : a = 0 \/ a = 1 \/ a = 2 \/ a = 3 \/ a = 4 \/ a = 5 \/ a = 6 \/ a = 7
          \/ a = 8 \/ a = 9 \/ a = 10 \/ a = 11 \/ a = 12 \/ a = 13 \/ a = 14 \/ a = 15
          \/ a = 16 \/ a = 17 \/ a = 18 \/ a = 19 \/ a = 20 \/ a = 21 \/ a = 22 \/ a = 23)
    by lia.
  repeat (destruct Hcases as [->|Hcases]; [done|]). by subst a.
Qed.

End FormatFacts.

Section FormatClaims.
Import JS Format.

(** C3.  The instant 2024-01-01T00:00:00Z is formatted for CSV as
    01/01/2024 03:00:00 EAT and for display as Jan 1, 2024, 3:00 AM EAT,
    by the mobile and by the web formatters alike, whatever the constant
    offset of the host's zone (up to a day either way) and whenever
    the host's [Date.parse] reads the interchange format. *)
Theorem new_year_2024_in_EAT (h : Host) (off now : Z) :
  conforming h ->
  (forall t, tzOffset h t = off) ->
  Z.abs off <= 1440 ->
  Records.formatCSVTime h (Some "2024-01-01T00:00:00Z") = "01/01/2024 03:00:00 EAT" /\
  Records.formatDisplayTime h (Some "2024-01-01T00:00:00Z") = "Jan 1, 2024, 3:00 AM EAT" /\
  Web.formatCSVTime h now (Some "2024-01-01T00:00:00Z") = "01/01/2024 03:00:00 EAT" /\
  Web.formatDisplayTime h now (Some "2024-01-01T00:00:00Z") = "Jan 1, 2024, 3:00 AM EAT".
Proof.
  intros Hconf Hoff Hbound.
  assert (Hparse : new_Date_string h "2024-01-01T00:00:00Z" = Some 1704067200000).
  { unfold new_Date_string.
    rewrite (Hconf _ 1704067200000) by (vm_compute; reflexivity).
    vm_compute; reflexivity. }
  assert (He : Z.abs (1704067200000 + tzOffset h 1704067200000 * 60000 + 10800000)
               <= maxTime).
  { rewrite Hoff. unfold maxTime. lia. }
  assert (Hsame : tzOffset h (1704067200000 + tzOffset h 1704067200000 * 60000 + 10800000)
                  = tzOffset h 1704067200000) by (by rewrite !Hoff).
  assert (Hne : "2024-01-01T00:00:00Z" <> "") by done.
  rewrite (Records_formatCSVTime_valid h _ _ Hne Hparse).
  rewrite (Records_formatDisplayTime_valid h _ _ Hne Hparse).
  rewrite Web_formatCSVTime_present, Web_formatDisplayTime_present by done.
  rewrite Hparse.
  rewrite (csvOf_shift h _ He Hsame), (displayOf_shift h _ He Hsame).
  by vm_compute.
Qed.

Lemma new_year_2024_in_EAT_witness :
  Records.formatCSVTime (fixedHost 300) (Some "2024-01-01T00:00:00Z")
    = "01/01/2024 03:00:00 EAT" /\
  Records.formatDisplayTime (fixedHost 300) (Some "2024-01-01T00:00:00Z")
    = "Jan 1, 2024, 3:00 AM EAT" /\
  Web.formatCSVTime (fixedHost 300) 0 (Some "2024-01-01T00:00:00Z")
    = "01/01/2024 03:00:00 EAT" /\
  Web.formatDisplayTime (fixedHost 300) 0 (Some "2024-01-01T00:00:00Z")
    = "Jan 1, 2024, 3:00 AM EAT".
Proof.
  apply (new_year_2024_in_EAT (fixedHost 300) 300 0).
  - apply conforming_fixedHost.
  - reflexivity.
  - vm_compute. discriminate.
Defined.

(** C4.  On a string that does not parse, the web formatters return
    neither Invalid date nor N/A: they print the fields of an invalid
    date, where the mobile formatters of the same repository test
    [isNaN(date.getTime())] first. *)
Theorem web_formatters_skip_validity_test :
  new_Date_string (fixedHost 0) "not a date" = NaN /\
  Web.formatDisplayTime (fixedHost 0) 0 (Some "not a date")
    = "undefined NaN, NaN, 12:NaN AM EAT" /\
  Web.formatCSVTime (fixedHost 0) 0 (Some "not a date")
    = "NaN/NaN/NaN NaN:NaN:NaN EAT" /\
  Records.formatDisplayTime (fixedHost 0) (Some "not a date") = "Invalid date" /\
  Records.formatCSVTime (fixedHost 0) (Some "not a date") = "N/A".
Proof. by vm_compute. Qed.

(** C10.  The hour shown by the display formatters is between 1 and 12:
    hour 0 of the shifted date is shown as 12 AM, hour 12 as 12 PM, hours
    13 to 23 as the hour minus 12 PM, and hours 1 to 11 unchanged AM.  The
    web formatter prints this template for every string that is not
    empty, the mobile formatter for every one that parses. *)
Theorem display_hour_between_1_and_12 (h : Host) (now : Z) (ts : string) :
  ts <> "" ->
  let eatTime := shiftToEAT h (new_Date_string h ts) in
  let shown k :=
    displayTemplate (months_at (getMonth h eatTime)) (getDate h eatTime)
      (getFullYear h eatTime) (Some k)
      (padStart 2 "0" (toString (getMinutes h eatTime))) (ampm (getHours h eatTime)) in
  exists k : Z,
    1 <= k <= 12 /\
    Web.formatDisplayTime h now (Some ts) = shown k /\
    (Records.formatDisplayTime h (Some ts) = shown k \/
     new_Date_string h ts = NaN /\ Records.formatDisplayTime h (Some ts) = "Invalid date") /\
    (getHours h eatTime = Some 0 -> k = 12 /\ ampm (getHours h eatTime) = "AM") /\
    (getHours h eatTime = Some 12 -> k = 12 /\ ampm (getHours h eatTime) = "PM") /\
    (forall a, 13 <= a <= 23 -> getHours h eatTime = Some a ->
               k = a - 12 /\ ampm (getHours h eatTime) = "PM") /\
    (forall a, 1 <= a <= 11 -> getHours h eatTime = Some a ->
               k = a /\ ampm (getHours h eatTime) = "AM").
Proof.
  intros Hts eatTime shown.
  assert (Hk : exists k, 1 <= k <= 12 /\ hour12 (getHours h eatTime) = Some k /\
     (getHours h eatTime = Some 0 -> k = 12 /\ ampm (getHours h eatTime) = "AM") /\
     (getHours h eatTime = Some 12 -> k = 12 /\ ampm (getHours h eatTime) = "PM") /\
     (forall a, 13 <= a <= 23 -> getHours h eatTime = Some a ->
                k = a - 12 /\ ampm (getHours h eatTime) = "PM") /\
     (forall a, 1 <= a <= 11 -> getHours h eatTime = Some a ->
                k = a /\ ampm (getHours h eatTime) = "AM")).
  { destruct (getHours_range h eatTime) as [E|(a & E & Ha)]; rewrite E.
    - exists 12. repeat split; try done; lia.
    - destruct (hour12_cases a Ha) as [H12 Hap]. rewrite H12, Hap.
      eexists. split; [|split; [reflexivity|]].
      + destruct (Z.eqb_spec a 0); [lia|]. destruct (Z.leb_spec a 12); lia.
      + split; [|split; [|split]].
        * by intros [= ->].
        * by intros [= ->].
        * intros b Hb [= ->]. split.
          -- destruct (Z.eqb_spec b 0); [lia|]. destruct (Z.leb_spec b 12); lia.
          -- destruct (Z.ltb_spec b 12); [lia|done].
        * intros b Hb [= ->]. split.
          -- destruct (Z.eqb_spec b 0); [lia|]. destruct (Z.leb_spec b 12); lia.
          -- destruct (Z.ltb_spec b 12); [done|lia]. }
  destruct Hk as (k & Hrange & Hk & Hcases). exists k.
  split; [done|].
  assert (Hshown : displayOf h eatTime = shown k).
  { unfold displayOf, shown. by rewrite Hk. }
  split; [by rewrite Web_formatDisplayTime_present|].
  split; [|done].
  destruct (new_Date_string h ts) as [t|] eqn:Ht.
  - left. by rewrite (Records_formatDisplayTime_valid h ts t).
  - right. split; [done|]. by apply Records_formatters_invalid.
Qed.

Lemma display_hour_between_1_and_12_witness :
  exists k : Z,
    1 <= k <= 12 /\
    Web.formatDisplayTime (fixedHost 0) 0 (Some "2024-01-01T21:05:00Z")
      = "Jan 2, 2024, " +:+ Z_toString k +:+ ":05 AM EAT".
Proof.
  destruct (display_hour_between_1_and_12 (fixedHost 0) 0 "2024-01-01T21:05:00Z")
    as (k & Hk & Hweb & _ & H0 & _); [discriminate|].
  exists k. split; [exact Hk|].
  destruct (H0 eq_refl) as [-> _]. reflexivity.
Defined.

End FormatClaims.

(* ===================================================================== *)
(** * Sorting newest first                                                *)
(* ===================================================================== *)

Section SortFacts.
Import JS.
Context (h : Host).

Lemma insertSorted_Permutation {A} (cmp : A -> A -> number) (x : A) (l : list A) :
  x :: l ≡ₚ insertSorted cmp x l.
Proof.
  induction l as [|y l IH]; simpl; [done|].
  destruct (SortCompare cmp x y <=? 0); [done|].
  rewrite <- IH. apply perm_swap.
Qed.

Lemma sort_Permutation {A} (cmp : A -> A -> number) (l : list A) : l ≡ₚ sort cmp l.
Proof.
  induction l as [|x l IH]; simpl; [done|].
  rewrite <- insertSorted_Permutation. by constructor.
Qed.

Lemma SortCompare_byTimestampDesc (a b : QRRecord) (ta tb : Z) :
  timeOf h a = Some ta -> timeOf h b = Some tb ->
  SortCompare (byTimestampDesc h) a b = tb - ta.
Proof.
  unfold SortCompare, byTimestampDesc, timeOf. by intros -> ->.
Qed.

Lemma notOlder_trans (a b c : QRRecord) :
  notOlder h a b -> notOlder h b c -> notOlder h a c.
Proof.
  intros (ta & tb & Ha & Hb & Hab) (tb' & tc & Hb' & Hc & Hbc).
  exists ta, tc. rewrite Hb in Hb'. injection Hb' as <-. repeat split; try done. lia.
Qed.

Lemma insertSorted_sorted (x : QRRecord) (l : list QRRecord) :
  timeOf h x <> NaN ->
  Forall (fun r => timeOf h r <> NaN) l ->
  StronglySorted (notOlder h) l ->
  StronglySorted (notOlder h) (insertSorted (byTimestampDesc h) x l).
Proof.
  intros Hx Hl Hs. destruct (timeOf h x) as [tx|] eqn:Ex; [clear Hx|done].
  induction Hs as [|y l Hs IH Hy]; simpl.
  - repeat constructor.
  - apply Forall_cons in Hl as [Hvy Hl].
    destruct (timeOf h y) as [ty|] eqn:Ey; [clear Hvy|done].
    rewrite (SortCompare_byTimestampDesc x y tx ty Ex Ey).
    assert (Hyy : notOlder h y y) by (exists ty, ty; repeat split; try done; lia).
    destruct (Z.leb_spec (ty - tx) 0) as [Hle|Hgt].
    + assert (Hxy : notOlder h x y) by (exists tx, ty; repeat split; try done; lia).
      constructor; [by constructor|].
      constructor; [done|].
      eapply Forall_impl; [exact Hy|]. intros z Hz. by eapply notOlder_trans.
    + constructor; [by apply IH|].
      rewrite <- insertSorted_Permutation. constructor; [|done].
      exists ty, tx. repeat split; try done. lia.
Qed.

(** With every timestamp parsing, the sorted array is in descending order
    of time. *)
Lemma sort_sorted (l : list QRRecord) :
  Forall (fun r => timeOf h r <> NaN) l ->
  StronglySorted (notOlder h) (sort (byTimestampDesc h) l).
Proof.
  induction 1 as [|x l Hx Hl IH]; simpl; [constructor|].
  apply insertSorted_sorted; [done| |done].
  by rewrite <- sort_Permutation.
Qed.

Lemma insertSorted_stable (k : number) (x : QRRecord) (l : list QRRecord) :
  filter (fun r => timeOf h r = k) (insertSorted (byTimestampDesc h) x l)
  = filter (fun r => timeOf h r = k) (x :: l).
Proof.
  induction l as [|y l IH]; simpl; [done|].
  destruct (Z.leb_spec (SortCompare (byTimestampDesc h) x y) 0) as [Hle|Hgt]; [done|].
  rewrite filter_cons, IH, !filter_cons.
  destruct (decide (timeOf h y = k)) as [Hy|Hy], (decide (timeOf h x = k)) as [Hx|Hx];
    try done.
  exfalso. revert Hgt. unfold SortCompare, byTimestampDesc. fold (timeOf h x) (timeOf h y).
  rewrite Hx, Hy. destruct k; simpl; lia.
Qed.

(** Records of equal time keep the order they had: the sort is stable. *)
Lemma sort_stable (k : number) (l : list QRRecord) :
  filter (fun r => timeOf h r = k) (sort (byTimestampDesc h) l)
  = filter (fun r => timeOf h r = k) l.
Proof.
  induction l as [|x l IH]; simpl; [done|].
  by rewrite insertSorted_stable, !filter_cons, IH.
Qed.

End SortFacts.

(* ===================================================================== *)
(** * CSV: reading the export back                                        *)
(* ===================================================================== *)

Section CsvFacts.
Import JS Format Csv CsvSpec.

Lemma replaceAll_doubled (s : string) :
  replaceAll dquote (String dquote (String dquote "")) s = doubled s.
Proof.
  induction s as [|c s IH]; [done|]. cbn [replaceAll doubled]. rewrite IH.
  by destruct (Ascii.eqb c dquote).
Qed.

(** The quoting of the export is the quoting the specification words. *)
Lemma escaped_quoted (s : string) : escaped s = quoted s.
Proof. unfold escaped, quoted. by rewrite replaceAll_doubled. Qed.

Lemma csvRow_rowOf (fmt : option string -> string) (r : QRRecord) :
  csvRow fmt r = rowOf fmt r.
Proof. unfold csvRow, rowOf. by rewrite !or_else_self, !escaped_quoted. Qed.

Lemma snoc_append (a : string) (c : ascii) (b : string) :
  snoc a c +:+ b = a +:+ String c b.
Proof. unfold snoc. by rewrite append_assoc. Qed.

Lemma read_doubled (s field : string) (row : list string) (rows : list (list string))
    (rest : string) :
  readCsv InQuotes field row rows (doubled s +:+ String dquote rest)
  = readCsv AfterQuote (field +:+ s) row rows rest.
Proof.
  revert field. induction s as [|c s IH]; intros field.
  - cbn. by rewrite append_nil_r.
  - cbn [doubled]. destruct (Ascii.eqb c dquote) eqn:Hc.
    + apply Ascii.eqb_eq in Hc as ->. rewrite !append_cons. cbn [readCsv].
      rewrite Ascii.eqb_refl. rewrite IH. by rewrite snoc_append.
    + rewrite append_cons. cbn [readCsv]. rewrite Hc, IH. by rewrite snoc_append.
Qed.

(** Reading a quoted field from the start of a field *)
Lemma read_quoted (s : string) (row : list string) (rows : list (list string))
    (rest : string) :
  readCsv Plain "" row rows (quoted s +:+ rest)
  = readCsv AfterQuote s row rows rest.
Proof.
  unfold quoted. rewrite append_cons, append_assoc. cbn [readCsv].
  rewrite Ascii.eqb_refl. rewrite append_cons. change ("" +:+ rest) with rest.
  by rewrite read_doubled.
Qed.

Lemma read_comma (field : string) (row : list string) (rows : list (list string))
    (rest : string) :
  readCsv AfterQuote field row rows ("," +:+ rest)
  = readCsv Plain "" (row ++ [field])%list rows rest.
Proof. reflexivity. Qed.

Lemma read_newline (field : string) (row : list string) (rows : list (list string))
    (rest : string) :
  readCsv AfterQuote field row rows (newline +:+ rest)
  = readCsv Plain "" [] (rows ++ [row ++ [field]])%list rest.
Proof. reflexivity. Qed.

Lemma read_row_then (fmt : option string -> string) (r : QRRecord)
    (rows : list (list string)) (rest : string) :
  readCsv Plain "" [] rows (rowOf fmt r +:+ rest)
  = readCsv AfterQuote (fmt (Some (timestamp r))) [name r; qrcode r] rows rest.
Proof.
  unfold rowOf. rewrite !append_assoc.
  by rewrite read_quoted, read_comma, read_quoted, read_comma, read_quoted.
Qed.

Lemma read_rows (fmt : option string -> string) (records : list QRRecord)
    (rows : list (list string)) :
  records <> [] ->
  readCsv Plain "" [] rows (join newline (map (rowOf fmt) records))
  = Some (rows ++ map (cells fmt) records)%list.
Proof.
  revert rows. induction records as [|r records IH]; intros rows Hne; [done|].
  destruct records as [|r' records].
  - cbn [map join]. rewrite <- (append_nil_r (rowOf fmt r)), read_row_then. done.
  - cbn [map join]. cbn [map] in IH. rewrite read_row_then, read_newline.
    rewrite IH by done. by rewrite <- app_assoc.
Qed.

Lemma read_header (body : string) :
  readCsv Plain "" [] [] (csvHeader +:+ body) = readCsv Plain "" [] [headerCells] body.
Proof. reflexivity. Qed.

(** Reading the exported text back gives the header cells and then, for
    each record in order, its name, its code and its formatted date. *)
Lemma parseCsv_csvContent (fmt : option string -> string) (records : list QRRecord) :
  parseCsv (csvContent fmt records) = Some (headerCells :: map (cells fmt) records).
Proof.
  unfold parseCsv, csvContent.
  replace (map (csvRow fmt) records) with (map (rowOf fmt) records)
    by (apply map_ext; intros; by rewrite csvRow_rowOf).
  rewrite read_header.
  destruct records as [|r records]; [done|].
  by rewrite read_rows.
Qed.

End CsvFacts.

Section QuoteFreeFacts.
Import JS Format Csv CsvSpec.

Lemma includes_append (c : ascii) (a b : string) :
  includes c (a +:+ b) = includes c a || includes c b.
Proof.
  induction a as [|x a IH]; [done|]. rewrite append_cons. simpl.
  rewrite IH. by rewrite orb_assoc.
Qed.

Lemma includes_repeat_char (c d : ascii) (n : nat) :
  Ascii.eqb d c = false -> includes c (repeat_char d n) = false.
Proof. intros H. induction n as [|n IH]; simpl; [done|]. by rewrite H, IH. Qed.

Lemma includes_padStart (c d : ascii) (n : nat) (s : string) :
  Ascii.eqb d c = false -> includes c (padStart n d s) = includes c s.
Proof.
  intros H. unfold padStart. by rewrite includes_append, includes_repeat_char.
Qed.

Lemma includes_string_of_uint (d : Decimal.uint) :
  includes dquote (NilEmpty.string_of_uint d) = false.
Proof. induction d; simpl; done. Qed.

Lemma includes_Z_toString (z : Z) : includes dquote (Z_toString z) = false.
Proof.
  unfold Z_toString.
  destruct (Z.to_int z) as [d|d]; simpl; destruct d; simpl;
    try done; apply includes_string_of_uint.
Qed.

Lemma includes_toString (x : number) : includes dquote (toString x) = false.
Proof. destruct x; [apply includes_Z_toString|done]. Qed.

Lemma includes_csvOf (h : Host) (e : Date) : includes dquote (csvOf h e) = false.
Proof.
  unfold csvOf. rewrite !includes_append, !includes_padStart, !includes_toString by done.
  done.
Qed.

Lemma doubled_plain (s : string) : includes dquote s = false -> doubled s = s.
Proof.
  induction s as [|c s IH]; [done|]. simpl. intros H.
  apply orb_false_iff in H as [Hc Hs]. by rewrite Hc, IH.
Qed.

Lemma quoted_plain (s : string) :
  includes dquote s = false -> quoted s = String dquote s +:+ String dquote "".
Proof. intros H. unfold quoted. by rewrite doubled_plain. Qed.

Lemma includes_Records_formatCSVTime (h : Host) (ts : option string) :
  includes dquote (Records.formatCSVTime h ts) = false.
Proof.
  unfold Records.formatCSVTime. destruct ts as [ts|]; [|done].
  destruct (truthy ts); simpl; [|done].
  destruct (isNaN _); [done|]. apply includes_csvOf.
Qed.

Lemma includes_Web_formatCSVTime (h : Host) (now : Z) (ts : option string) :
  includes dquote (Web.formatCSVTime h now ts) = false.
Proof.
  unfold Web.formatCSVTime. destruct (absent ts); [done|]. apply includes_csvOf.
Qed.

Lemma endsWith_append_r (suffix a b : string) :
  endsWith suffix b = true -> endsWith suffix (a +:+ b) = true.
Proof.
  intros H. induction a as [|c a IH]; [done|]. rewrite append_cons. cbn [endsWith].
  by destruct (String.eqb (String c (a +:+ b)) suffix).
Qed.

Lemma endsWith_csvOf (h : Host) (e : Date) : endsWith "EAT" (csvOf h e) = true.
Proof. unfold csvOf. cbv zeta. do 11 apply endsWith_append_r. reflexivity. Qed.

End QuoteFreeFacts.

Section CsvClaims.
Import JS Format Csv CsvSpec.

(** C7.  The exported text is the header line followed by one line per
    record, in order, each made of the name, the code and the formatted
    date wrapped in double quotes, double quotes inside written twice; a
    CSV reader gets back from it the header and exactly one row of three
    cells per record.  For the single record of code A, double quote, B
    and name Jo,e with a timestamp that parses, the text is the header
    and one line with the three quoted fields, the last ending in EAT. *)
Theorem csv_export_shape (h : Host) (now : Z) (records : list QRRecord) :
  let mobile := Records.formatCSVTime h in
  let web := Web.formatCSVTime h now in
  csvContent mobile records
    = "Name,QR Code,Registration Date (EAT)" +:+ newline
      +:+ join newline (map (rowOf mobile) records) /\
  csvContent web records
    = "Name,QR Code,Registration Date (EAT)" +:+ newline
      +:+ join newline (map (rowOf web) records) /\
  parseCsv (csvContent mobile records) = Some (headerCells :: map (cells mobile) records) /\
  parseCsv (csvContent web records) = Some (headerCells :: map (cells web) records) /\
  (forall r, quoted (mobile (Some (timestamp r)))
             = String dquote (mobile (Some (timestamp r))) +:+ String dquote "") /\
  (forall T t, T <> "" -> new_Date_string h T = Some t ->
     exists date,
       endsWith "EAT" date = true /\
       mobile (Some T) = date /\ web (Some T) = date /\
       csvContent mobile [exampleRecord T]
         = "Name,QR Code,Registration Date (EAT)" +:+ newline
           +:+ String dquote "Jo,e" +:+ String dquote ","
           +:+ String dquote "A" +:+ String dquote (String dquote "B")
           +:+ String dquote "," +:+ String dquote date +:+ String dquote "").
Proof.
  intros mobile web.
  assert (Hshape : forall fmt, csvContent fmt records
     = "Name,QR Code,Registration Date (EAT)" +:+ newline
       +:+ join newline (map (rowOf fmt) records)).
  { intros fmt. unfold csvContent, csvHeader. rewrite append_assoc. do 3 f_equal.
    apply map_ext. intros r. apply csvRow_rowOf. }
  split; [apply Hshape|]. split; [apply Hshape|].
  split; [apply parseCsv_csvContent|]. split; [apply parseCsv_csvContent|].
  split.
  { intros r. apply quoted_plain, includes_Records_formatCSVTime. }
  intros T t HT Ht. exists (csvOf h (shiftToEAT h (Some t))).
  split; [apply endsWith_csvOf|].
  assert (Hm : mobile (Some T) = csvOf h (shiftToEAT h (Some t)))
    by (by apply Records_formatCSVTime_valid).
  split; [done|].
  split; [unfold web; rewrite Web_formatCSVTime_present by done; by rewrite Ht|].
  unfold csvContent, csvHeader. cbn [map join]. rewrite csvRow_rowOf.
  unfold rowOf. cbn [name qrcode timestamp exampleRecord]. rewrite Hm.
  rewrite (quoted_plain (csvOf h _)) by apply includes_csvOf.
  rewrite !append_assoc. reflexivity.
Qed.

End CsvClaims.

(* ===================================================================== *)
(** * The mobile application: what every reachable state satisfies        *)
(* ===================================================================== *)

Section MobileFacts.
Import JS Mobile.
Context (h : Host).

Lemma some_codes (c : string) (l : list QRRecord) :
  some (fun record => String.eqb (qrcode record) c) l = true <-> c ∈ codes l.
Proof.
  unfold some, codes. rewrite existsb_exists, list_elem_of_In, in_map_iff.
  split; intros (r & H1 & H2); exists r.
  - split; [|done]. by apply String.eqb_eq in H2.
  - split; [done|]. by apply String.eqb_eq.
Qed.

Lemma some_codes_false (c : string) (l : list QRRecord) :
  some (fun record => String.eqb (qrcode record) c) l = false <-> c ∉ codes l.
Proof.
  rewrite <- some_codes. by destruct (some _ l).
Qed.

Lemma codes_filter_sublist (p : QRRecord -> bool) (l : list QRRecord) :
  sublist (codes (List.filter p l)) (codes l).
Proof.
  induction l as [|r l IH]; simpl; [done|].
  destruct (p r); simpl; by constructor.
Qed.

Lemma codes_rename (f : QRRecord -> QRRecord) (l : list QRRecord) :
  (forall r, qrcode (f r) = qrcode r) -> codes (map f l) = codes l.
Proof.
  intros Hf. unfold codes. rewrite map_map. apply map_ext. done.
Qed.

Lemma Forall_filter_bool {A} (P : A -> Prop) (p : A -> bool) (l : list A) :
  Forall P l -> Forall P (List.filter p l).
Proof.
  induction 1 as [|x l Hx Hl IH]; simpl; [done|].
  destruct (p x); [by constructor|done].
Qed.

(** ** The handlers one by one *)

Lemma handleQRCodeScanned_storage_free (sto : list QRRecord) (st : Scanner.State)
    (data : string) :
  let st' := fst (Scanner.handleQRCodeScanned sto st data) in
  Scanner.isProcessing st = false ->
  trim (Scanner.qrValue st) = Scanner.qrValue st ->
  Scanner.isProcessing st' = false /\ trim (Scanner.qrValue st') = Scanner.qrValue st'.
Proof.
  intros st' Hidle Htrim. subst st'. unfold Scanner.handleQRCodeScanned.
  rewrite Hidle. simpl.
  destruct (negb (truthy data) || String.eqb (trim data) ""); [done|].
  destruct (some _ _); simpl; split; try done; apply trim_idempotent.
Qed.

(** The three ways [handleRegister] can end *)
Lemma handleRegister_cases (now : Z) (sto : list QRRecord) (st : Scanner.State) :
  let res := Scanner.handleRegister h now sto st in
  (trim (Scanner.qrValue st) = "" /\ res = (sto, st, Scanner.Rejected)) \/
  (trim (Scanner.qrValue st) <> "" /\ Scanner.qrValue st ∈ codes sto /\
   fst (fst res) = sto /\ snd res = Scanner.Duplicate /\
   Scanner.qrValue (snd (fst res)) = Scanner.qrValue st /\ Scanner.isProcessing (snd (fst res)) = false) \/
  (trim (Scanner.qrValue st) <> "" /\ (Scanner.qrValue st ∉ codes sto) /\
   (~ registrable h now) /\
   fst (fst res) = sto /\ snd res = Scanner.Failed /\
   Scanner.qrValue (snd (fst res)) = Scanner.qrValue st /\ Scanner.isProcessing (snd (fst res)) = false) \/
  (trim (Scanner.qrValue st) <> "" /\ (Scanner.qrValue st ∉ codes sto) /\
   registrable h now /\
   exists r,
     fst (fst res) = (sto ++ [r])%list /\ snd res = Scanner.Registered r /\
     qrcode r = Scanner.qrValue st /\
     name r = or_else (trim (Scanner.personName st)) "Unnamed" /\
     Some (timestamp r)
       = toISOString (Some (now + tzOffset h now * 60000 + 10800000)) /\
     timezoneOffset r = None /\
     Scanner.qrValue (snd (fst res)) = Scanner.qrValue st /\ Scanner.isProcessing (snd (fst res)) = false).
Proof.
  intros res. subst res. unfold Scanner.handleRegister.
  destruct (truthy (trim (Scanner.qrValue st))) eqn:Hq; simpl.
  2:{ left. by apply truthy_false in Hq. }
  apply truthy_true in Hq. right.
  destruct (some _ (Scanner.getRecords sto)) eqn:Hdup.
  { left. apply some_codes in Hdup. done. }
  apply some_codes_false in Hdup. right.
  unfold new_Date_number, getTime, getTimezoneOffset.
  destruct (Z.leb_spec (Z.abs now) maxTime) as [Hnow|Hnow]; simpl.
  2:{ destruct (Z.leb_spec (Z.abs now) maxTime) as [?|_]; [lia|]. simpl.
      left. repeat split; try done. intros [? _]. lia. }
  destruct (Z.leb_spec (Z.abs now) maxTime) as [_|?]; [|lia]. simpl.
  destruct (Z.leb_spec (Z.abs (now + tzOffset h now * 60000 + 10800000)) maxTime)
    as [He|He]; simpl.
  - right. repeat split; try done.
    eexists. repeat split; try done.
  - left. repeat split; try done. intros [_ ?]. lia.
Qed.

Lemma saveEdit_cases (st : Records.State) :
  (Records.saveEdit st = None /\
   (Records.editingRecord st = None \/ trim (Records.editName st) = "")) \/
  exists editing,
    Records.editingRecord st = Some editing /\
    trim (Records.editName st) <> "" /\
    let updated :=
      map (fun record =>
             if String.eqb (qrcode record) (qrcode editing)
             then with_name record (trim (Records.editName st))
             else record) (Records.records st) in
    Records.saveEdit st
    = Some (updated,
            {| Records.records := updated; Records.editModalVisible := false;
               Records.editingRecord := None; Records.editName := "" |}).
Proof.
  unfold Records.saveEdit. destruct (Records.editingRecord st) as [editing|].
  2:{ left. split; [done|by left]. }
  destruct (truthy (trim (Records.editName st))) eqn:Hn; simpl.
  - right. exists editing. apply truthy_true in Hn. done.
  - left. apply truthy_false in Hn. split; [done|by right].
Qed.

Lemma MobileInv_initial : MobileInv initial.
Proof. split; simpl; try done; try apply NoDup_nil_2; try apply Forall_nil_2. Qed.

Lemma MobileInv_step (a : App) (e : Event) : MobileInv a -> MobileInv (step h a e).
Proof.
  intros Ha. pose proof Ha as [Hc Hcs Hn Hns Hidle Htrim Hsync].
  destruct e as [[|]|data|s|now| | |c|record|s| | |]; simpl.
  - (* Focus ScannerTab *)
    destruct (focused a) eqn:Hf; [exact Ha|]. by split.
  - (* Focus RecordsTab *)
    destruct (focused a) eqn:Hf; [|exact Ha].
    split; simpl; try done.
    + unfold codes. by rewrite <- sort_Permutation.
    + by rewrite <- sort_Permutation.
    + intros _. symmetry. apply sort_Permutation.
  - (* Scan *)
    unfold on_scanner. destruct (focused a) eqn:Hf; [|exact Ha].
    destruct (handleQRCodeScanned_storage_free (storage a) (scanner a) data Hidle Htrim).
    split; simpl; try done. by rewrite Hf.
  - (* TypeName *)
    unfold on_scanner. destruct (focused a) eqn:Hf; [|exact Ha].
    split; simpl; try done. by rewrite Hf.
  - (* Register *)
    destruct (focused a) eqn:Hf; [|exact Ha].
    pose proof (handleRegister_cases now (storage a) (scanner a)) as Hcases.
    destruct (Scanner.handleRegister h now (storage a) (scanner a)) as [[sto' s'] res].
    simpl in Hcases.
    destruct Hcases as [[_ [= -> -> ->]]|[(_ & _ & -> & _ & Hq & Hi)|
      [(_ & _ & _ & -> & _ & Hq & Hi)|(_ & Hfresh & _ & r & -> & _ & Hr & Hname & _ & _ & Hq & Hi)]]];
      split; simpl; try done; try (by rewrite Hq).
    + unfold codes. rewrite map_app. simpl. apply NoDup_app. repeat split; try done.
      * intros c Hin ->%list_elem_of_singleton. apply Hfresh. by rewrite <- Hr.
      * apply NoDup_singleton.
    + apply Forall_app. split; [done|]. constructor; [|done].
      rewrite Hname. by apply or_else_nonempty.
  - (* WarningTimeout *) by split.
  - (* SuccessTimeout *) by split.
  - (* Delete *)
    destruct (focused a) eqn:Hf; [exact Ha|].
    split; simpl; try done.
    + eapply sublist_NoDup; [|apply codes_filter_sublist]; done.
    + eapply sublist_NoDup; [|apply codes_filter_sublist]; done.
    + by apply Forall_filter_bool.
    + by apply Forall_filter_bool.
  - (* OpenEdit *)
    unfold on_records. destruct (focused a) eqn:Hf; [exact Ha|].
    split; simpl; try done. intros _. by apply Hsync.
  - (* TypeEditName *)
    unfold on_records. destruct (focused a) eqn:Hf; [exact Ha|].
    split; simpl; try done. intros _. by apply Hsync.
  - (* CancelEdit *)
    unfold on_records. destruct (focused a) eqn:Hf; [exact Ha|].
    split; simpl; try done. intros _. by apply Hsync.
  - (* RequestClose *)
    unfold on_records. destruct (focused a) eqn:Hf; [exact Ha|].
    split; simpl; try done. intros _. by apply Hsync.
  - (* SaveEdit *)
    destruct (focused a) eqn:Hf; [exact Ha|].
    destruct (saveEdit_cases (recordsScreen a)) as [[-> _]|(editing & _ & Hname & ->)];
      [exact Ha|].
    assert (Hcodes : codes (map (fun record =>
               if String.eqb (qrcode record) (qrcode editing)
               then with_name record (trim (Records.editName (recordsScreen a)))
               else record) (Records.records (recordsScreen a)))
             = codes (Records.records (recordsScreen a))).
    { apply codes_rename. intros r. by destruct (String.eqb _ _). }
    assert (Hnames : Forall (fun r => name r <> "") (map (fun record =>
               if String.eqb (qrcode record) (qrcode editing)
               then with_name record (trim (Records.editName (recordsScreen a)))
               else record) (Records.records (recordsScreen a)))).
    { apply Forall_map. eapply Forall_impl; [exact Hns|]. intros r Hr. simpl.
      by destruct (String.eqb _ _). }
    split; simpl; try done; by rewrite Hcodes.
Qed.

Lemma MobileInv_run (a : App) (es : list Event) : MobileInv a -> MobileInv (run h a es).
Proof.
  revert a. induction es as [|e es IH]; intros a Ha; [done|].
  simpl. apply IH. by apply MobileInv_step.
Qed.

Lemma MobileInv_reachable (es : list Event) : MobileInv (run h initial es).
Proof. apply MobileInv_run, MobileInv_initial. Qed.

End MobileFacts.

Section MobileRecordsFacts.
Import JS Mobile.
Context (h : Host).

Lemma sameOrigin_refl (r : QRRecord) : sameOrigin r r.
Proof. done. Qed.

Lemma sameOrigin_with_name (r : QRRecord) (n : string) : sameOrigin r (with_name r n).
Proof. done. Qed.

Lemma Register_storage (a : App) (now : Z) :
  focused a = ScannerTab ->
  storage (step h a (Register now))
  = fst (fst (Scanner.handleRegister h now (storage a) (scanner a))).
Proof.
  intros Hf. simpl. rewrite Hf.
  by destruct (Scanner.handleRegister h now (storage a) (scanner a)) as [[? ?] ?].
Qed.

(** A stored record stays stored, under its code and with its timestamp,
    through every event but the deletion of its code. *)
Lemma step_keeps (a : App) (e : Event) (r : QRRecord) :
  MobileInv a -> r ∈ storage a -> e <> Delete (qrcode r) ->
  exists r', r' ∈ storage (step h a e) /\ sameOrigin r r'.
Proof.
  intros Ha Hr He.
  assert (Hsame : forall a', storage a' = storage a ->
            exists r', r' ∈ storage a' /\ sameOrigin r r').
  { intros a' ->. by exists r. }
  destruct e as [[|]|data|s|now| | |c|record|s| | |]; simpl;
    try (apply Hsame; unfold on_scanner, on_records; by destruct (focused a)).
  - (* Register *)
    destruct (focused a) eqn:Hf; [|by apply Hsame].
    pose proof (handleRegister_cases h now (storage a) (scanner a)) as Hcases.
    destruct (Scanner.handleRegister h now (storage a) (scanner a)) as [[sto' s'] res].
    simpl in Hcases. exists r. split; [|done]. simpl.
    destruct Hcases as [[_ [= -> -> ->]]|[(_ & _ & -> & _)|
      [(_ & _ & _ & -> & _)|(_ & _ & _ & r0 & -> & _)]]]; try done.
    apply elem_of_app. by left.
  - (* Delete *)
    destruct (focused a) eqn:Hf; [by apply Hsame|]. simpl.
    exists r. split; [|done].
    apply list_elem_of_In, filter_In. split.
    + apply list_elem_of_In. by rewrite (inv_sync a Ha Hf).
    + apply negb_true_iff. apply String.eqb_neq. congruence.
  - (* SaveEdit *)
    destruct (focused a) eqn:Hf; [by apply Hsame|].
    destruct (saveEdit_cases (recordsScreen a)) as [[-> _]|(editing & _ & _ & ->)];
      [by apply Hsame|]. simpl.
    assert (Hin : r ∈ Records.records (recordsScreen a)) by (by rewrite (inv_sync a Ha Hf)).
    eexists. split.
    + apply list_elem_of_In, in_map, list_elem_of_In, Hin.
    + simpl. destruct (String.eqb _ _); done.
Qed.

Lemma run_keeps (a : App) (es : list Event) (r : QRRecord) :
  MobileInv a -> r ∈ storage a -> Forall (fun e => e <> Delete (qrcode r)) es ->
  exists r', r' ∈ storage (run h a es) /\ sameOrigin r r'.
Proof.
  revert a r. induction es as [|e es IH]; intros a r Ha Hr Hes.
  - by exists r.
  - apply Forall_cons in Hes as [He Hes]. simpl.
    destruct (step_keeps a e r Ha Hr He) as (r1 & Hr1 & Ho1).
    destruct (IH (step h a e) r1 (MobileInv_step h a e Ha) Hr1) as (r2 & Hr2 & Ho2).
    { destruct Ho1 as [-> _]. done. }
    exists r2. split; [done|].
    destruct Ho1 as (? & ? & ?), Ho2 as (? & ? & ?). repeat split; congruence.
Qed.

Lemma run_keeps_code (a : App) (es : list Event) (c : string) :
  MobileInv a -> c ∈ codes (storage a) -> Forall (fun e => e <> Delete c) es ->
  c ∈ codes (storage (run h a es)).
Proof.
  intros Ha Hc Hes. apply list_elem_of_fmap in Hc as (r & -> & Hr).
  destruct (run_keeps a es r Ha Hr Hes) as (r' & Hr' & Hcode & _).
  rewrite <- Hcode. by apply list_elem_of_fmap_2.
Qed.

(** Every record stored after an event was stored before it, under the
    same code and with the same timestamp, or has just been registered. *)
Lemma step_origin (a : App) (e : Event) (r' : QRRecord) :
  MobileInv a -> r' ∈ storage (step h a e) ->
  (exists r, r ∈ storage a /\ sameOrigin r r') \/
  (exists now, e = Register now /\
               snd (Scanner.handleRegister h now (storage a) (scanner a))
               = Scanner.Registered r').
Proof.
  intros Ha.
  assert (Hsame : forall a', storage a' = storage a -> r' ∈ storage a' ->
            (exists r, r ∈ storage a /\ sameOrigin r r') \/
            (exists now, e = Register now /\
               snd (Scanner.handleRegister h now (storage a) (scanner a))
               = Scanner.Registered r')).
  { intros a' -> Hr. left. by exists r'. }
  destruct e as [[|]|data|s|now| | |c|record|s| | |]; simpl;
    try (apply Hsame; unfold on_scanner, on_records; by destruct (focused a)).
  - (* Register *)
    destruct (focused a) eqn:Hf; [|by apply Hsame].
    pose proof (handleRegister_cases h now (storage a) (scanner a)) as Hcases.
    destruct (Scanner.handleRegister h now (storage a) (scanner a))
      as [[sto' s'] res] eqn:E.
    simpl in *.
    destruct Hcases as [[_ [= -> -> ->]]|[(_ & _ & -> & _)|
      [(_ & _ & _ & -> & _)|(_ & _ & _ & r0 & -> & -> & _)]]];
      try (intros Hr; left; by exists r').
    intros [Hr| ->%list_elem_of_singleton]%elem_of_app.
    + left. by exists r'.
    + right. exists now. by rewrite E.
  - (* Delete *)
    destruct (focused a) eqn:Hf; [by apply Hsame|]. simpl.
    intros [Hr _]%list_elem_of_In%filter_In. left. exists r'. split; [|done].
    rewrite <- (inv_sync a Ha Hf). by apply list_elem_of_In.
  - (* SaveEdit *)
    destruct (focused a) eqn:Hf; [by apply Hsame|].
    destruct (saveEdit_cases (recordsScreen a)) as [[-> _]|(editing & _ & _ & ->)];
      [by apply Hsame|]. simpl.
    intros (r & <- & Hr)%list_elem_of_In%in_map_iff. left. exists r. split.
    + rewrite <- (inv_sync a Ha Hf). by apply list_elem_of_In.
    + destruct (String.eqb _ _); done.
Qed.

Lemma focus_scanner (a : App) :
  focused (step h a (Focus ScannerTab)) = ScannerTab /\
  storage (step h a (Focus ScannerTab)) = storage a.
Proof. simpl. by destruct (focused a) eqn:Hf. Qed.

Lemma scan_accepted (sto : list QRRecord) (st : Scanner.State) (data : string) :
  Scanner.isProcessing st = false -> trim data <> "" ->
  Scanner.qrValue (fst (Scanner.handleQRCodeScanned sto st data)) = trim data /\
  snd (Scanner.handleQRCodeScanned sto st data)
  = if some (fun record => String.eqb (qrcode record) (trim data)) sto
    then Scanner.ScanDuplicate else Scanner.ScanFresh.
Proof.
  intros Hidle Hdata.
  assert (Hd : truthy data = true).
  { apply truthy_true. by intros ->. }
  assert (Ht : String.eqb (trim data) "" = false) by (by apply String.eqb_neq).
  unfold Scanner.handleQRCodeScanned, Scanner.getRecords. rewrite Hidle, Hd, Ht. simpl.
  by destruct (some _ _).
Qed.

Lemma scan_ignored (sto : list QRRecord) (st : Scanner.State) (data : string) :
  trim data = "" ->
  Scanner.handleQRCodeScanned sto st data = (st, Scanner.ScanIgnored).
Proof.
  intros Hdata. unfold Scanner.handleQRCodeScanned. rewrite Hdata.
  by rewrite !orb_true_r.
Qed.

(** After the scanner tab is focused and a code is scanned, the form
    holds the trimmed code over the same storage. *)
Lemma scan_ready (a : App) (data : string) :
  MobileInv a -> trim data <> "" ->
  let a1 := run h a [Focus ScannerTab; Scan data] in
  focused a1 = ScannerTab /\ Scanner.qrValue (scanner a1) = trim data /\
  storage a1 = storage a /\ MobileInv a1.
Proof.
  intros Ha Hdata a1.
  assert (Hinv : MobileInv a1) by (by apply MobileInv_run).
  destruct (focus_scanner a) as [Hf Hs].
  pose proof (MobileInv_step h a (Focus ScannerTab) Ha) as Ha0.
  assert (Ea1 : a1 = with_scanner (step h a (Focus ScannerTab))
                  (fst (Scanner.handleQRCodeScanned
                          (storage (step h a (Focus ScannerTab)))
                          (scanner (step h a (Focus ScannerTab))) data))).
  { subst a1.
    change (run h a [Focus ScannerTab; Scan data])
      with (on_scanner (step h a (Focus ScannerTab))
              (fun s => fst (Scanner.handleQRCodeScanned
                               (storage (step h a (Focus ScannerTab))) s data))).
    unfold on_scanner. by rewrite Hf. }
  clearbody a1. subst a1.
  split; [exact Hf|]. split; [|split; [exact Hs|exact Hinv]].
  cbn [with_scanner scanner].
  by apply scan_accepted; [apply (inv_idle _ Ha0)|].
Qed.

End MobileRecordsFacts.

(* ===================================================================== *)
(** * The web application: what every reachable store satisfies          *)
(* ===================================================================== *)

Section WebFacts.
Import JS.

Lemma Web_handleFormSubmission_cases (now : Z) (db : gmap string QRRecord)
    (q n : string) :
  let res := Web.handleFormSubmission now db q n in
  (trim q = "" /\ res = (db, Web.Rejected)) \/
  (trim q <> "" /\ is_Some (db !! trim q) /\ res = (db, Web.Duplicate)) \/
  (trim q <> "" /\ db !! trim q = None /\ ~ Z.abs now <= maxTime /\
   res = (db, Web.Failed)) \/
  (trim q <> "" /\ db !! trim q = None /\ Z.abs now <= maxTime /\
   exists r,
     res = (<[trim q := r]> db, Web.Registered r) /\
     qrcode r = trim q /\
     name r = or_else (trim n) "Unnamed" /\
     Some (timestamp r) = toISOString (Some now) /\
     timezoneOffset r = Some 180).
Proof.
  intros res. subst res. unfold Web.handleFormSubmission.
  destruct (truthy (trim q)) eqn:Hq; simpl.
  2:{ left. by apply truthy_false in Hq. }
  apply truthy_true in Hq. right.
  destruct (db !! trim q) as [r0|] eqn:Hdb.
  { left. split; [done|]. split; [by exists r0|done]. }
  right. unfold new_Date_number. simpl.
  destruct (Z.leb_spec (Z.abs now) maxTime) as [Hnow|Hnow]; simpl.
  - right. split; [done|]. split; [done|]. split; [done|].
    eexists. repeat split; done.
  - left. repeat split; try done. lia.
Qed.

Lemma WebInv_empty : WebInv ∅.
Proof. intros c r H. by rewrite lookup_empty in H. Qed.

Lemma WebInv_step (db : gmap string QRRecord) (e : Web.Event) :
  WebInv db -> WebInv (Web.step db e).
Proof.
  intros Hdb. destruct e as [now q n|c answer|c confirmed]; simpl.
  - pose proof (Web_handleFormSubmission_cases now db q n) as Hcases.
    destruct (Web.handleFormSubmission now db q n) as [db' res]. simpl in *.
    destruct Hcases as [[_ [= -> _]]|[(_ & _ & [= -> _])|[(_ & _ & _ & [= -> _])|
      (_ & _ & _ & r & [= -> _] & Hcode & Hname & _)]]]; try done.
    intros c r0. rewrite lookup_insert. case_decide as Hc.
    + intros [= <-]. subst c. split; [done|]. rewrite Hname. by apply or_else_nonempty.
    + apply Hdb.
  - unfold Web.editRecord. destruct (db !! c) as [r|] eqn:Hr; [|done].
    destruct answer as [newName|]; [|done].
    destruct (String.eqb (trim newName) "") eqn:Hn; simpl; [done|].
    apply String.eqb_neq in Hn. unfold Web.put. simpl.
    intros c' r'. rewrite lookup_insert. case_decide as Hc.
    + intros [= <-]. done.
    + apply Hdb.
  - unfold Web.deleteRecord. destruct confirmed; [|done].
    intros c' r'. rewrite lookup_delete. case_decide; [done|]. apply Hdb.
Qed.

Lemma WebInv_run (db : gmap string QRRecord) (es : list Web.Event) :
  WebInv db -> WebInv (Web.run db es).
Proof.
  revert db. induction es as [|e es IH]; intros db Hdb; [done|].
  simpl. apply IH. by apply WebInv_step.
Qed.

Lemma WebInv_reachable (es : list Web.Event) : WebInv (Web.run ∅ es).
Proof. apply WebInv_run, WebInv_empty. Qed.

(** [getAll] returns the stored records, each once. *)
Lemma Web_getAll_Permutation (db : gmap string QRRecord) :
  Web.getAll db ≡ₚ (map_to_list db).*2.
Proof. unfold Web.getAll. by rewrite merge_sort_Permutation. Qed.

Lemma Web_getAll_elem (db : gmap string QRRecord) (r : QRRecord) :
  r ∈ Web.getAll db <-> exists c, db !! c = Some r.
Proof.
  rewrite Web_getAll_Permutation, list_elem_of_fmap. split.
  - intros ([c r'] & -> & H). exists c. by apply elem_of_map_to_list.
  - intros (c & H). exists (c, r). split; [done|]. by apply elem_of_map_to_list.
Qed.

(** What an edit does to a store. *)
Lemma Web_editRecord_cases (db : gmap string QRRecord) (c : string)
    (answer : option string) :
  WebInv db ->
  (Web.editRecord db c answer = db /\
   (db !! c = None \/ answer = None \/ exists n, answer = Some n /\ trim n = "")) \/
  exists r n,
    db !! c = Some r /\ answer = Some n /\ trim n <> "" /\
    Web.editRecord db c answer = <[c := with_name r (trim n)]> db.
Proof.
  intros Hdb. unfold Web.editRecord.
  destruct (db !! c) as [r|] eqn:Hr; [|left; split; [done|by left]].
  destruct answer as [n|]; [|left; split; [done|right; by left]].
  destruct (String.eqb (trim n) "") eqn:Hn; simpl.
  - apply String.eqb_eq in Hn. left. split; [done|]. right. right. by exists n.
  - apply String.eqb_neq in Hn. right. exists r, n. repeat split; try done.
    unfold Web.put. simpl. by destruct (Hdb c r Hr) as [-> _].
Qed.

End WebFacts.

(* ===================================================================== *)
(** * Registration and duplicates                                         *)
(* ===================================================================== *)

Section RegistrationClaims.
Import JS Mobile.

(** C1.  In every state the mobile application reaches, no two stored
    records have the same code.  Scanning a code that is not stored and
    registering it appends exactly one record with the trimmed code;
    scanning a stored code and registering it ends in Duplicate with the
    storage untouched; and a code once registered is answered with
    Duplicate again after any events that do not delete it. *)
Theorem codes_stay_unique (h : Host) (es : list Event) :
  let a := run h initial es in
  NoDup (codes (storage a)) /\
  (forall data now,
     trim data <> "" ->
     let a1 := run h a [Focus ScannerTab; Scan data] in
     let res := Scanner.handleRegister h now (storage a1) (scanner a1) in
     storage a1 = storage a /\
     storage (step h a1 (Register now)) = fst (fst res) /\
     (trim data ∉ codes (storage a) -> registrable h now ->
        exists r, snd res = Scanner.Registered r /\ qrcode r = trim data /\
                  fst (fst res) = (storage a ++ [r])%list) /\
     (trim data ∈ codes (storage a) ->
        snd res = Scanner.Duplicate /\ fst (fst res) = storage a)) /\
  (forall data now es' data' now',
     trim data <> "" -> trim data' = trim data ->
     trim data ∈ codes (storage a) \/ registrable h now ->
     Forall (fun e => e <> Delete (trim data)) es' ->
     let a2 := run h a ([Focus ScannerTab; Scan data; Register now] ++ es'
                        ++ [Focus ScannerTab; Scan data'])%list in
     let res := Scanner.handleRegister h now' (storage a2) (scanner a2) in
     snd res = Scanner.Duplicate /\ fst (fst res) = storage a2 /\
     storage (step h a2 (Register now')) = storage a2).
Proof.
  intros a. pose proof (MobileInv_reachable h es) as Ha. fold a in Ha.
  assert (Hreg : forall (b : App) data now,
    MobileInv b -> trim data <> "" ->
    let b1 := run h b [Focus ScannerTab; Scan data] in
    let res := Scanner.handleRegister h now (storage b1) (scanner b1) in
    storage b1 = storage b /\
    storage (step h b1 (Register now)) = fst (fst res) /\
    (trim data ∉ codes (storage b) -> registrable h now ->
       exists r, snd res = Scanner.Registered r /\ qrcode r = trim data /\
                 fst (fst res) = (storage b ++ [r])%list) /\
    (trim data ∈ codes (storage b) ->
       snd res = Scanner.Duplicate /\ fst (fst res) = storage b)).
  { intros b data now Hb Hdata b1 res.
    destruct (scan_ready h b data Hb Hdata) as (Hf & Hq & Hs & Hb1). fold b1 in Hf, Hq, Hs, Hb1.
    split; [done|]. split; [by apply Register_storage|].
    pose proof (handleRegister_cases h now (storage b1) (scanner b1)) as Hcases.
    fold res in Hcases. rewrite Hq, Hs in Hcases. rewrite trim_idempotent in Hcases.
    destruct Hcases as [[? _]|[(_ & Hin & Hsto & Hres & _)|
      [(_ & Hnot & Hno & _)|(_ & Hnot & _ & r & Hsto & Hres & Hcode & _)]]]; [done|..].
    - split; [by intros Hnot|done].
    - split; [by intros _ Hyes|by intros Hin].
    - split; [|by intros Hin]. intros _ _. by exists r. }
  split; [apply Ha|]. split; [intros data now Hdata; by apply Hreg|].
  intros data now es' data' now' Hdata Hdata' Hpre Hes' a2 res.
  set (a1 := run h a [Focus ScannerTab; Scan data]).
  set (b := step h a1 (Register now)).
  set (b' := run h b es').
  assert (Ea2 : a2 = run h b' [Focus ScannerTab; Scan data']).
  { subst a2 b' b a1. unfold run. by rewrite !fold_left_app. }
  assert (Ha1 : MobileInv a1) by (by apply MobileInv_run).
  assert (Hb : MobileInv b) by (by apply MobileInv_step).
  assert (Hb' : MobileInv b') by (by apply MobileInv_run).
  assert (Hstored : trim data ∈ codes (storage b)).
  { destruct (Hreg a data now Ha Hdata) as (Hs & Hstep & Hfresh & Hdup).
    fold a1 in Hs, Hstep, Hfresh, Hdup. subst b. rewrite Hstep.
    destruct (decide (trim data ∈ codes (storage a))) as [Hin|Hnot].
    - destruct (Hdup Hin) as [_ ->]. done.
    - destruct Hpre as [?|Hnow]; [done|].
      destruct (Hfresh Hnot Hnow) as (r & _ & Hcode & ->).
      unfold codes. rewrite map_app, <- Hcode. apply elem_of_app. right.
      apply list_elem_of_singleton. done. }
  assert (Hkept : trim data' ∈ codes (storage b')).
  { rewrite Hdata'. by apply run_keeps_code. }
  assert (Hdata'' : trim data' <> "") by (by rewrite Hdata').
  destruct (Hreg b' data' now' Hb' Hdata'') as (Hs & Hstep & _ & Hdup).
  rewrite <- Ea2 in Hs, Hstep, Hdup. fold res in Hstep, Hdup.
  destruct (Hdup Hkept) as [Hres Hsto].
  split; [done|]. split; [by rewrite Hs|]. by rewrite Hstep, Hs.
Qed.

(** C9.  For every scanned string and every storage, the check made when
    the code is scanned and the check made when it is registered give the
    same answer: the scan handler warns of a duplicate exactly when
    registering the value it has put in the form ends in Duplicate, both
    being the comparison of the trimmed input with the stored codes.  A
    string that is blank after trimming is dropped by the scan handler. *)
Theorem duplicate_checks_agree (h : Host) (now : Z) (sto : list QRRecord)
    (st : Scanner.State) (data : string) :
  Scanner.isProcessing st = false ->
  let scan := Scanner.handleQRCodeScanned sto st data in
  let register := Scanner.handleRegister h now sto (fst scan) in
  let stored := some (fun record => String.eqb (qrcode record) (trim data)) sto in
  (trim data = "" -> scan = (st, Scanner.ScanIgnored)) /\
  (trim data <> "" ->
     Scanner.qrValue (fst scan) = trim data /\
     (snd scan = Scanner.ScanDuplicate <-> stored = true) /\
     (snd register = Scanner.Duplicate <-> stored = true) /\
     (snd scan = Scanner.ScanDuplicate <-> snd register = Scanner.Duplicate)).
Proof.
  intros Hidle scan register stored.
  split; [intros Hdata; by apply scan_ignored|].
  intros Hdata.
  destruct (scan_accepted sto st data Hidle Hdata) as [Hq Hscan].
  fold scan in Hq, Hscan. fold stored in Hscan.
  assert (Hs : snd scan = Scanner.ScanDuplicate <-> stored = true).
  { rewrite Hscan. by destruct stored. }
  assert (Hr : snd register = Scanner.Duplicate <-> stored = true).
  { pose proof (handleRegister_cases h now sto (fst scan)) as Hcases.
    fold register in Hcases. rewrite Hq, trim_idempotent in Hcases.
    unfold stored. rewrite some_codes.
    destruct Hcases as [[? _]|[(_ & Hin & _ & -> & _)|
      [(_ & Hnot & _ & _ & -> & _)|(_ & Hnot & _ & r & _ & -> & _)]]]; [done|..];
      split; done. }
  split; [done|]. split; [done|]. split; [done|]. by rewrite Hs, Hr.
Qed.

Lemma duplicate_checks_agree_witness :
  let sto := [ {| qrcode := "x"; name := "Bob"; timestamp := "2024-01-01T03:00:00.000Z";
                  timezoneOffset := None |} ] in
  let scan := Scanner.handleQRCodeScanned sto Scanner.initial " x " in
  snd scan = Scanner.ScanDuplicate <->
  snd (Scanner.handleRegister (fixedHost 0) 1704067200000 sto (fst scan))
  = Scanner.Duplicate.
Proof.
  intros sto scan.
  destruct (duplicate_checks_agree (fixedHost 0) 1704067200000 sto Scanner.initial " x "
              eq_refl) as [_ H].
  apply H. discriminate.
Defined.

(** C6.  No stored record has an empty name, in any state the mobile
    or the web application reaches.  A registration with a name that is
    blank after trimming stores Unnamed, one with the name Alice between
    spaces stores Alice, and an edit to a blank name writes nothing. *)
Theorem names_are_never_empty (h : Host) (es : list Event) (wes : list Web.Event) :
  Forall (fun r => name r <> "") (storage (run h initial es)) /\
  (forall c r, Web.run ∅ wes !! c = Some r -> name r <> "") /\
  (forall now sto st r,
     snd (Scanner.handleRegister h now sto st) = Scanner.Registered r ->
     fst (fst (Scanner.handleRegister h now sto st)) = (sto ++ [r])%list /\
     (trim (Scanner.personName st) = "" -> name r = "Unnamed") /\
     (Scanner.personName st = "  Alice  " -> name r = "Alice")) /\
  (forall now db q n r,
     snd (Web.handleFormSubmission now db q n) = Web.Registered r ->
     fst (Web.handleFormSubmission now db q n) !! qrcode r = Some r /\
     (trim n = "" -> name r = "Unnamed") /\
     (n = "  Alice  " -> name r = "Alice")) /\
  (forall st, trim (Records.editName st) = "" -> Records.saveEdit st = None) /\
  (forall db c n, trim n = "" -> Web.editRecord db c (Some n) = db).
Proof.
  split; [apply MobileInv_reachable|].
  split; [intros c r Hr; by apply (WebInv_reachable wes c r)|].
  split.
  { intros now sto st r Hres.
    pose proof (handleRegister_cases h now sto st) as Hcases. simpl in Hcases.
    rewrite Hres in Hcases.
    destruct Hcases as [[_ E]|[(_ & _ & _ & ? & _)|[(_ & _ & _ & _ & ? & _)|
      (_ & _ & _ & r' & Hsto & [= <-] & _ & Hname & _)]]]; try done.
    { rewrite E in Hres. done. }
    split; [done|]. rewrite Hname. split; [by intros ->|by intros ->]. }
  split.
  { intros now db q n r Hres.
    pose proof (Web_handleFormSubmission_cases now db q n) as Hcases. simpl in Hcases.
    destruct Hcases as [[_ E]|[(_ & _ & E)|[(_ & _ & _ & E)|
      (_ & _ & _ & r' & E & Hcode & Hname & _)]]]; rewrite E in Hres |- *; try done.
    injection Hres as <-. simpl. rewrite Hcode, lookup_insert_eq.
    split; [done|]. rewrite Hname. split; [by intros ->|by intros ->]. }
  split.
  { intros st Hblank. destruct (saveEdit_cases st) as [[? _]|(? & _ & ? & _)]; done. }
  intros db c n Hblank. unfold Web.editRecord. destruct (db !! c); [|done].
  by rewrite Hblank.
Qed.

(** C5.  An edit to a name that is blank after trimming writes nothing,
    on the mobile records screen and in the web application.  An edit to
    any other name gives each record with the edited code the trimmed name
    and leaves its code, timestamp and offset as they were; every other
    record is left as it was, in the same position. *)
Theorem edit_replaces_only_the_name (h : Host) (wes : list Web.Event) :
  (forall st, trim (Records.editName st) = "" -> Records.saveEdit st = None) /\
  (forall a, trim (Records.editName (recordsScreen a)) = "" -> step h a SaveEdit = a) /\
  (forall st editing,
     Records.editingRecord st = Some editing -> trim (Records.editName st) <> "" ->
     exists updated st',
       Records.saveEdit st = Some (updated, st') /\
       Records.records st' = updated /\
       Forall2 (fun r r' =>
                  sameOrigin r r' /\
                  name r' = if decide (qrcode r = qrcode editing)
                            then trim (Records.editName st) else name r)
               (Records.records st) updated) /\
  (let db := Web.run ∅ wes in
   (forall c answer,
      answer = None \/ (exists n, answer = Some n /\ trim n = "") ->
      Web.editRecord db c answer = db) /\
   (forall c n r,
      db !! c = Some r -> trim n <> "" ->
      Web.editRecord db c (Some n) !! c = Some (with_name r (trim n)) /\
      sameOrigin r (with_name r (trim n)) /\
      forall c', c' <> c -> Web.editRecord db c (Some n) !! c' = db !! c')).
Proof.
  assert (Hblank : forall st, trim (Records.editName st) = "" -> Records.saveEdit st = None).
  { intros st Hb. destruct (saveEdit_cases st) as [[? _]|(? & _ & ? & _)]; done. }
  split; [done|]. split.
  { intros a Hb. simpl. destruct (focused a); [done|]. by rewrite Hblank. }
  split.
  { intros st editing Hedit Hname.
    destruct (saveEdit_cases st) as [[_ [?|?]]|(editing' & Hedit' & _ & Hsave)];
      [congruence|done|].
    rewrite Hedit in Hedit'. injection Hedit' as <-.
    eexists _, _. split; [exact Hsave|]. split; [done|].
    clear Hsave Hedit.
    induction (Records.records st) as [|r l IH]; simpl; constructor; [|done].
    destruct (String.eqb_spec (qrcode r) (qrcode editing)) as [E|E];
      case_decide; done. }
  intros db. pose proof (WebInv_reachable wes) as Hdb. fold db in Hdb.
  split.
  { intros c answer Hans. destruct (Web_editRecord_cases db c answer Hdb)
      as [[? _]|(r & n & _ & -> & Hn & _)]; [done|].
    destruct Hans as [?|(n' & [= <-] & ?)]; done. }
  intros c n r Hr Hn.
  destruct (Web_editRecord_cases db c (Some n) Hdb)
    as [[_ [?|[?|(n' & [= <-] & ?)]]]|(r' & n' & Hr' & [= <-] & _ & ->)];
    try congruence.
  rewrite Hr in Hr'. injection Hr' as <-.
  split; [by rewrite lookup_insert_eq|]. split; [done|].
  intros c' Hc'. by rewrite lookup_insert_ne.
Qed.

(** The timestamp the mobile scanner stores is the clock reading moved by
    the host offset and three hours; it is the clock reading itself only
    on a host whose offset is that of East Africa Time. *)
Lemma Scanner_timestamp (h : Host) (now : Z) (sto : list QRRecord) (st : Scanner.State)
    (r : QRRecord) :
  snd (Scanner.handleRegister h now sto st) = Scanner.Registered r ->
  Some (timestamp r) = toISOString (Some (now + tzOffset h now * 60000 + 10800000)) /\
  (tzOffset h now = -180 -> Some (timestamp r) = toISOString (Some now)).
Proof.
  intros Hres.
  pose proof (handleRegister_cases h now sto st) as Hcases. simpl in Hcases.
  rewrite Hres in Hcases.
  destruct Hcases as [[_ E]|[(_ & _ & _ & ? & _)|[(_ & _ & _ & _ & ? & _)|
    (_ & _ & _ & r' & _ & [= <-] & _ & _ & Hiso & _)]]]; try done.
  { rewrite E in Hres. done. }
  split; [done|]. intros Hoff. rewrite Hiso, Hoff.
  by replace (now + -180 * 60000 + 10800000) with now by lia.
Qed.

(** The timestamp the web application stores is the clock reading. *)
Lemma Web_timestamp (now : Z) (db : gmap string QRRecord) (q n : string) (r : QRRecord) :
  snd (Web.handleFormSubmission now db q n) = Web.Registered r ->
  Some (timestamp r) = toISOString (Some now).
Proof.
  intros Hres.
  pose proof (Web_handleFormSubmission_cases now db q n) as Hcases. simpl in Hcases.
  destruct Hcases as [[_ E]|[(_ & _ & E)|[(_ & _ & _ & E)|
    (_ & _ & _ & r' & E & _ & _ & Hiso & _)]]]; rewrite E in Hres; try done.
  by injection Hres as <-.
Qed.

(** C2.  On a host whose zone is UTC, a registration made by the mobile
    scanner at 2024-01-01T00:00:00.000Z stores the timestamp
    2024-01-01T03:00:00.000Z: the instant is shifted by the host offset
    and three hours before it is serialized, and the records screen, which
    shifts again, shows 6:00 AM.  The web application stores the instant
    itself. *)
Theorem mobile_stores_a_shifted_timestamp :
  let h := fixedHost 0 in
  let now := 1704067200000 in
  let a := run h initial [Scan "x"; Register now] in
  toISOString (Some now) = Some "2024-01-01T00:00:00.000Z" /\
  map timestamp (storage a) = ["2024-01-01T03:00:00.000Z"] /\
  map (fun r => Records.formatDisplayTime h (Some (timestamp r))) (storage a)
    = ["Jan 1, 2024, 6:00 AM EAT"] /\
  timestamp <$> (fst (Web.handleFormSubmission now ∅ "x" "") !! "x")
    = Some "2024-01-01T00:00:00.000Z".
Proof. by vm_compute. Qed.

End RegistrationClaims.

(* ===================================================================== *)
(** * Listing the records                                                 *)
(* ===================================================================== *)

Section StampFacts.
Import JS.
Context (h : Host).

(** A conforming host reads every stored timestamp. *)
Lemma wellStamped_parses (r : QRRecord) :
  conforming h -> wellStamped r -> timeOf h r <> NaN.
Proof.
  intros Hconf (t & Ht & Hiso).
  destruct (isoParse_toISOString t Ht) as (s & Hs & Hparse).
  rewrite Hiso in Hs. injection Hs as <-.
  unfold timeOf, getTime, new_Date_string. rewrite (Hconf _ _ Hparse).
  by rewrite TimeClip_in_range.
Qed.

Lemma Mobile_stamped_step (a : Mobile.App) (e : Mobile.Event) :
  MobileInv a -> Forall wellStamped (Mobile.storage a) ->
  Forall wellStamped (Mobile.storage (Mobile.step h a e)).
Proof.
  intros Ha Hst. apply Forall_forall. intros r' Hr'.
  destruct (step_origin h a e r' Ha Hr') as [(r & Hr & _ & Hts & _)|(now & -> & Hres)].
  - destruct (proj1 (Forall_forall _ _) Hst r Hr) as (t & Ht & Hiso).
    exists t. by rewrite Hts.
  - pose proof (handleRegister_cases h now (Mobile.storage a) (Mobile.scanner a)) as Hc.
    simpl in Hc. rewrite Hres in Hc.
    destruct Hc as [[_ E]|[(_ & _ & _ & ? & _)|[(_ & _ & _ & _ & ? & _)|
      (_ & _ & [_ Hnow] & r & _ & [= <-] & _ & _ & Hiso & _)]]]; try done.
    + rewrite E in Hres. done.
    + eexists. split; [exact Hnow|done].
Qed.

Lemma Mobile_stamped (es : list Mobile.Event) :
  Forall wellStamped (Mobile.storage (Mobile.run h Mobile.initial es)).
Proof.
  assert (H : forall a, MobileInv a -> Forall wellStamped (Mobile.storage a) ->
            Forall wellStamped (Mobile.storage (Mobile.run h a es))).
  { induction es as [|e es IH]; intros a Ha Hst; [done|]. simpl.
    apply IH; [by apply MobileInv_step|by apply Mobile_stamped_step]. }
  apply H; [apply MobileInv_initial|constructor].
Qed.

Lemma Web_stamped_step (db : gmap string QRRecord) (e : Web.Event) :
  (forall c r, db !! c = Some r -> wellStamped r) ->
  forall c r, Web.step db e !! c = Some r -> wellStamped r.
Proof.
  intros Hdb. destruct e as [now q n|c0 answer|c0 confirmed]; simpl.
  - pose proof (Web_handleFormSubmission_cases now db q n) as Hcases.
    destruct (Web.handleFormSubmission now db q n) as [db' res]. simpl in *.
    destruct Hcases as [[_ [= -> _]]|[(_ & _ & [= -> _])|[(_ & _ & _ & [= -> _])|
      (_ & _ & Hnow & r & [= -> _] & _ & _ & Hiso & _)]]]; try done.
    intros c r0. rewrite lookup_insert. case_decide as Hc; [|apply Hdb].
    intros [= <-]. by exists now.
  - unfold Web.editRecord. destruct (db !! c0) as [r|] eqn:Hr; [|done].
    destruct answer as [newName|]; [|done].
    destruct (String.eqb (trim newName) ""); simpl; [done|].
    unfold Web.put. simpl. intros c' r'. rewrite lookup_insert.
    case_decide as Hc; [|apply Hdb]. intros [= <-].
    destruct (Hdb _ _ Hr) as (t & Ht & Hiso). by exists t.
  - unfold Web.deleteRecord. destruct confirmed; [|done].
    intros c' r'. rewrite lookup_delete. case_decide; [done|]. apply Hdb.
Qed.

Lemma Web_stamped (es : list Web.Event) (c : string) (r : QRRecord) :
  Web.run ∅ es !! c = Some r -> wellStamped r.
Proof.
  assert (H : forall db, (forall c r, db !! c = Some r -> wellStamped r) ->
            forall c r, Web.run db es !! c = Some r -> wellStamped r).
  { induction es as [|e es IH]; intros db Hdb; [done|]. simpl.
    apply IH. by apply Web_stamped_step. }
  apply H. intros c' r'. by rewrite lookup_empty.
Qed.

End StampFacts.

Section ListingClaims.
Import JS.

(** C8.  On a conforming host, for every collection the mobile or the
    web application has stored, the records listed are all the stored
    records, in descending order of their time, records of equal time
    keeping the order they had in the input. *)
Theorem list_is_newest_first (h : Host) (es : list Mobile.Event) (wes : list Web.Event) :
  conforming h ->
  let a := Mobile.run h Mobile.initial es in
  let db := Web.run ∅ wes in
  let shown := Records.records (Records.loadRecords h (Mobile.storage a)
                                  (Mobile.recordsScreen a)) in
  let web := Web.loadRecords h db in
  shown ≡ₚ Mobile.storage a /\
  StronglySorted (notOlder h) shown /\
  (forall k, filter (fun r => timeOf h r = k) shown
             = filter (fun r => timeOf h r = k) (Mobile.storage a)) /\
  (forall r, r ∈ web <-> exists c, db !! c = Some r) /\
  web ≡ₚ Web.getAll db /\
  StronglySorted (notOlder h) web /\
  (forall k, filter (fun r => timeOf h r = k) web
             = filter (fun r => timeOf h r = k) (Web.getAll db)).
Proof.
  intros Hconf a db shown web. subst shown web. unfold Web.loadRecords. simpl.
  split; [symmetry; apply sort_Permutation|].
  split.
  { apply sort_sorted. eapply Forall_impl; [apply Mobile_stamped|].
    intros r. by apply wellStamped_parses. }
  split; [intros k; apply sort_stable|].
  split; [intros r; by rewrite <- sort_Permutation, Web_getAll_elem|].
  split; [symmetry; apply sort_Permutation|].
  split; [|intros k; apply sort_stable].
  apply sort_sorted. apply Forall_forall. intros r [c Hr]%Web_getAll_elem.
  apply wellStamped_parses; [done|]. by apply (Web_stamped wes c).
Qed.

Lemma list_is_newest_first_witness :
  let h := fixedHost 0 in
  let a := Mobile.run h Mobile.initial
             [Mobile.Scan "a"; Mobile.Register 1704067200000;
              Mobile.Scan "b"; Mobile.Register 1704153600000] in
  let shown := Records.records (Records.loadRecords h (Mobile.storage a)
                                  (Mobile.recordsScreen a)) in
  shown ≡ₚ Mobile.storage a /\ StronglySorted (notOlder h) shown.
Proof.
  intros h a shown.
  destruct (list_is_newest_first h
              [Mobile.Scan "a"; Mobile.Register 1704067200000;
               Mobile.Scan "b"; Mobile.Register 1704153600000] [])
    as (H1 & H2 & _).
  - apply conforming_fixedHost.
  - split; assumption.
Defined.

End ListingClaims.

(* ===================================================================== *)
(** * Further properties: what is stored                                  *)
(* ===================================================================== *)

Section StoredRecordFacts.
Import JS Mobile.
Context (h : Host).

Lemma or_else_trimmed (p : string) :
  trim (or_else (trim p) "Unnamed") = or_else (trim p) "Unnamed".
Proof.
  unfold or_else. destruct (truthy (trim p)); [apply trim_idempotent|reflexivity].
Qed.

Lemma wellFormed_with_name (r : QRRecord) (n : string) :
  wellFormed r -> trim n <> "" -> wellFormed (with_name r (trim n)).
Proof.
  intros (Hc & Hct & _ & _) Hn. repeat split; try done. apply trim_idempotent.
Qed.

Lemma Mobile_wellFormed_step (a : App) (e : Event) :
  MobileInv a ->
  Forall wellFormed (storage a) ->
  Forall wellFormed (Records.records (recordsScreen a)) ->
  Forall wellFormed (storage (step h a e)) /\
  Forall wellFormed (Records.records (recordsScreen (step h a e))).
Proof.
  intros Ha Hs Hr.
  destruct e as [[|]|data|s|now| | |c|record|s| | |]; simpl;
    try (unfold on_scanner, on_records; by destruct (focused a)).
  - (* Focus RecordsTab *)
    destruct (focused a); [|done]. simpl. split; [done|].
    by rewrite <- sort_Permutation.
  - (* Register *)
    destruct (focused a) eqn:Hf; [|done].
    pose proof (handleRegister_cases h now (storage a) (scanner a)) as Hcases.
    destruct (Scanner.handleRegister h now (storage a) (scanner a)) as [[sto' s'] res].
    simpl in *.
    destruct Hcases as [[_ [= -> -> ->]]|[(_ & _ & -> & _)|
      [(_ & _ & _ & -> & _)|(Hq & _ & _ & r & -> & _ & Hcode & Hname & _)]]];
      try done.
    split; [|done]. apply Forall_app. split; [done|]. constructor; [|done].
    pose proof (inv_trimmed a Ha) as Ht.
    unfold wellFormed. rewrite Hcode, Hname, Ht. rewrite Ht in Hq.
    repeat split; try done; [by apply or_else_nonempty|apply or_else_trimmed].
  - (* Delete *)
    destruct (focused a); [done|]. simpl. split; by apply Forall_filter_bool.
  - (* SaveEdit *)
    destruct (focused a); [done|].
    destruct (saveEdit_cases (recordsScreen a)) as [[-> _]|(editing & _ & Hn & ->)];
      [done|]. simpl.
    assert (Forall wellFormed (map (fun record =>
               if String.eqb (qrcode record) (qrcode editing)
               then with_name record (trim (Records.editName (recordsScreen a)))
               else record) (Records.records (recordsScreen a)))); [|done].
    apply Forall_map. eapply Forall_impl; [exact Hr|]. intros r Hwf. simpl.
    destruct (String.eqb _ _); [by apply wellFormed_with_name|done].
Qed.

Lemma Mobile_wellFormed (es : list Event) :
  Forall wellFormed (storage (run h initial es)) /\
  Forall wellFormed (Records.records (recordsScreen (run h initial es))).
Proof.
  assert (H : forall a, MobileInv a ->
            Forall wellFormed (storage a) ->
            Forall wellFormed (Records.records (recordsScreen a)) ->
            Forall wellFormed (storage (run h a es)) /\
            Forall wellFormed (Records.records (recordsScreen (run h a es)))).
  { induction es as [|e es IH]; intros a Ha Hs Hr; [done|]. simpl.
    destruct (Mobile_wellFormed_step a e Ha Hs Hr).
    apply IH; [by apply MobileInv_step|done|done]. }
  apply H; [apply MobileInv_initial|constructor|constructor].
Qed.

End StoredRecordFacts.

Section WebStoredRecordFacts.
Import JS.

Lemma Web_wellFormed_step (db : gmap string QRRecord) (e : Web.Event) :
  (forall c r, db !! c = Some r -> wellFormed r) ->
  forall c r, Web.step db e !! c = Some r -> wellFormed r.
Proof.
  intros Hdb. destruct e as [now q n|c0 answer|c0 confirmed]; simpl.
  - pose proof (Web_handleFormSubmission_cases now db q n) as Hcases.
    destruct (Web.handleFormSubmission now db q n) as [db' res]. simpl in *.
    destruct Hcases as [[_ [= -> _]]|[(_ & _ & [= -> _])|[(_ & _ & _ & [= -> _])|
      (Hq & _ & _ & r & [= -> _] & Hcode & Hname & _)]]]; try done.
    intros c r0. rewrite lookup_insert. case_decide as Hc; [|apply Hdb].
    intros [= <-]. unfold wellFormed. rewrite Hcode, Hname.
    repeat split; try done;
      [apply trim_idempotent|by apply or_else_nonempty|apply or_else_trimmed].
  - unfold Web.editRecord. destruct (db !! c0) as [r|] eqn:Hr; [|done].
    destruct answer as [newName|]; [|done].
    destruct (String.eqb (trim newName) "") eqn:Hn; simpl; [done|].
    apply String.eqb_neq in Hn. unfold Web.put. simpl.
    intros c' r'. rewrite lookup_insert. case_decide as Hc; [|apply Hdb].
    intros [= <-]. apply wellFormed_with_name; [|done]. by apply (Hdb c0).
  - unfold Web.deleteRecord. destruct confirmed; [|done].
    intros c' r'. rewrite lookup_delete. case_decide; [done|]. apply Hdb.
Qed.

Lemma Web_wellFormed (es : list Web.Event) (c : string) (r : QRRecord) :
  Web.run ∅ es !! c = Some r -> wellFormed r.
Proof.
  assert (H : forall db, (forall c r, db !! c = Some r -> wellFormed r) ->
            forall c r, Web.run db es !! c = Some r -> wellFormed r).
  { induction es as [|e es IH]; intros db Hdb; [done|]. simpl.
    apply IH. by apply Web_wellFormed_step. }
  apply H. intros c' r'. by rewrite lookup_empty.
Qed.

(** X1.  Every code either application has stored is trimmed and not
    empty, and every stored name is trimmed and not empty. *)
Theorem stored_records_are_well_formed (h : Host) (es : list Mobile.Event)
    (wes : list Web.Event) :
  Forall wellFormed (Mobile.storage (Mobile.run h Mobile.initial es)) /\
  (forall c r, Web.run ∅ wes !! c = Some r -> wellFormed r).
Proof.
  split; [apply Mobile_wellFormed|]. intros c r. apply Web_wellFormed.
Qed.

Lemma Web_codes_getAll (db : gmap string QRRecord) :
  WebInv db -> codes (Web.getAll db) ≡ₚ (map_to_list db).*1.
Proof.
  intros Hdb. unfold codes. rewrite Web_getAll_Permutation.
  assert (E : forall l : list (string * QRRecord),
            (forall c r, (c, r) ∈ l -> qrcode r = c) -> map qrcode (l.*2) = l.*1).
  { induction l as [|[c r] l IH]; intros Hl; [done|]. simpl. f_equal.
    - apply Hl. by left.
    - apply IH. intros c' r' Hin. apply Hl. by right. }
  rewrite E; [done|]. intros c r Hin. apply elem_of_map_to_list in Hin. by apply Hdb.
Qed.

(** X2.  In every store the web application reaches, no two records
    have the same code.  A submission whose trimmed code is stored ends in
    Duplicate and leaves the store as it was; one whose trimmed code is
    new adds one record, under that code. *)
Theorem web_codes_stay_unique (wes : list Web.Event) :
  let db := Web.run ∅ wes in
  NoDup (codes (Web.getAll db)) /\
  (forall now q n,
     is_Some (db !! trim q) -> Web.handleFormSubmission now db q n = (db, Web.Duplicate)) /\
  (forall now q n,
     trim q <> "" -> db !! trim q = None -> Z.abs now <= maxTime ->
     exists r, Web.handleFormSubmission now db q n
               = (<[trim q := r]> db, Web.Registered r) /\
               qrcode r = trim q /\
               size (<[trim q := r]> db) = S (size db)).
Proof.
  intros db. pose proof (WebInv_reachable wes) as Hdb. fold db in Hdb.
  split; [|split].
  - rewrite Web_codes_getAll by done. apply NoDup_fst_map_to_list.
  - intros now q n [r0 Hr0].
    assert (Hq : trim q <> "").
    { destruct (Web_wellFormed wes _ _ Hr0) as (Hne & _).
      destruct (Hdb _ _ Hr0) as [Hcode _]. by rewrite Hcode in Hne. }
    pose proof (Web_handleFormSubmission_cases now db q n) as Hcases. simpl in Hcases.
    destruct Hcases as [[? _]|[(_ & _ & E)|[(_ & Hnone & _)|(_ & Hnone & _)]]];
      [done|done|congruence|congruence].
  - intros now q n Hq Hnone Hnow.
    pose proof (Web_handleFormSubmission_cases now db q n) as Hcases. simpl in Hcases.
    destruct Hcases as [[? _]|[(_ & [? ?] & _)|[(_ & _ & ? & _)|
      (_ & _ & _ & r & E & Hcode & _)]]]; [done|congruence|done|].
    exists r. split; [done|]. split; [done|]. by apply map_size_insert_None.
Qed.

End WebStoredRecordFacts.

(* ===================================================================== *)
(** * Further properties: the records screen and the form                 *)
(* ===================================================================== *)

Section ScreenFacts.
Import JS Mobile.
Context (h : Host).

(** Registering what has just been scanned *)
Lemma register_after_scan (b : App) (data : string) (now : Z) :
  MobileInv b -> trim data <> "" ->
  let b1 := run h b [Focus ScannerTab; Scan data] in
  let res := Scanner.handleRegister h now (storage b1) (scanner b1) in
  storage b1 = storage b /\
  storage (step h b1 (Register now)) = fst (fst res) /\
  (trim data ∉ codes (storage b) -> registrable h now ->
     exists r, snd res = Scanner.Registered r /\ qrcode r = trim data /\
               fst (fst res) = (storage b ++ [r])%list) /\
  (trim data ∈ codes (storage b) ->
     snd res = Scanner.Duplicate /\ fst (fst res) = storage b).
Proof.
  intros Hb Hdata b1 res.
  destruct (scan_ready h b data Hb Hdata) as (Hf & Hq & Hs & Hb1).
  fold b1 in Hf, Hq, Hs, Hb1.
  split; [done|]. split; [by apply Register_storage|].
  pose proof (handleRegister_cases h now (storage b1) (scanner b1)) as Hcases.
  fold res in Hcases. rewrite Hq, Hs in Hcases. rewrite trim_idempotent in Hcases.
  destruct Hcases as [[? _]|[(_ & Hin & Hsto & Hres & _)|
    [(_ & Hnot & Hno & _)|(_ & Hnot & _ & r & Hsto & Hres & Hcode & _)]]]; [done|..].
  - split; [by intros Hnot|done].
  - split; [by intros _ Hyes|by intros Hin].
  - split; [|by intros Hin]. intros _ _. by exists r.
Qed.

Lemma focus_records (a : App) :
  focused (step h a (Focus RecordsTab)) = RecordsTab.
Proof. simpl. by destruct (focused a) eqn:Hf. Qed.

Lemma run_snoc (a : App) (es : list Event) (e : Event) :
  run h a (es ++ [e]) = step h (run h a es) e.
Proof. unfold run. by rewrite fold_left_app. Qed.

Lemma codes_filter_out (c : string) (l : list QRRecord) :
  c ∉ codes (List.filter (fun record => negb (String.eqb (qrcode record) c)) l).
Proof.
  intros (r & -> & Hr)%list_elem_of_fmap.
  apply list_elem_of_In, filter_In in Hr as [_ Hr].
  apply negb_true_iff, String.eqb_neq in Hr. done.
Qed.

Lemma filter_out_absent (c : string) (l : list QRRecord) :
  c ∉ codes l ->
  List.filter (fun record => negb (String.eqb (qrcode record) c)) l = l.
Proof.
  induction l as [|r l IH]; [done|]. simpl. intros Hc.
  apply not_elem_of_cons in Hc as [Hr Hl].
  destruct (String.eqb_spec (qrcode r) c) as [E|_]; [congruence|]. simpl.
  by rewrite IH.
Qed.

(** X3.  On the records screen, deleting a code removes the record with
    that code from the storage and keeps every other record; deleting a
    code that is not stored keeps them all; the screen shows what is
    stored; and the deleted code can be registered again. *)
Theorem delete_removes_only_that_code (es : list Event) (c : string) :
  let a := run h initial (es ++ [Focus RecordsTab]) in
  let a' := step h a (Delete c) in
  (c ∉ codes (storage a')) /\
  (forall r, r ∈ storage a' <-> r ∈ storage a /\ qrcode r <> c) /\
  (c ∉ codes (storage a) -> storage a' ≡ₚ storage a) /\
  Records.records (recordsScreen a') = storage a' /\
  (forall data now,
     trim data = c -> c <> "" -> registrable h now ->
     let a2 := run h a' [Focus ScannerTab; Scan data] in
     exists r, snd (Scanner.handleRegister h now (storage a2) (scanner a2))
               = Scanner.Registered r /\ qrcode r = c).
Proof.
  intros a a'.
  assert (Ha : MobileInv a) by apply MobileInv_reachable.
  assert (Hf : focused a = RecordsTab).
  { subst a. rewrite run_snoc. apply focus_records. }
  assert (Ea' : storage a'
    = List.filter (fun record => negb (String.eqb (qrcode record) c))
        (Records.records (recordsScreen a)) /\
    Records.records (recordsScreen a') = storage a').
  { subst a'. simpl. by rewrite Hf. }
  destruct Ea' as [Ea' Hscreen]. pose proof (inv_sync a Ha Hf) as Hsync.
  split; [rewrite Ea'; apply codes_filter_out|].
  split.
  { intros r. rewrite Ea', list_elem_of_In, filter_In, <- list_elem_of_In, Hsync.
    rewrite negb_true_iff, String.eqb_neq. done. }
  split.
  { intros Hc. rewrite Ea', filter_out_absent; [done|].
    unfold codes. by rewrite Hsync. }
  split; [done|].
  intros data now Hdata Hc Hnow a2.
  assert (Ha' : MobileInv a') by (by apply MobileInv_step).
  assert (Hd : trim data <> "") by (by rewrite Hdata).
  destruct (register_after_scan a' data now Ha' Hd) as (_ & _ & Hfresh & _).
  destruct Hfresh as (r & Hres & Hcode & _); [|done|].
  - rewrite Hdata, Ea'. apply codes_filter_out.
  - exists r. by rewrite <- Hdata.
Qed.

(** X4.  While the records screen is focused, it shows exactly the
    stored records: its list is a rearrangement of the storage. *)
Theorem records_screen_shows_storage (es : list Event) :
  let a := run h initial es in
  focused a = RecordsTab ->
  Records.records (recordsScreen a) ≡ₚ storage a.
Proof. intros a Hf. by apply inv_sync; [apply MobileInv_reachable|]. Qed.

End ScreenFacts.

Lemma records_screen_shows_storage_witness :
  let a := Mobile.run (JS.fixedHost 0) Mobile.initial
             [Mobile.Scan "a"; Mobile.Register 1704067200000;
              Mobile.Focus Mobile.RecordsTab] in
  Records.records (Mobile.recordsScreen a) ≡ₚ Mobile.storage a.
Proof.
  apply (records_screen_shows_storage (JS.fixedHost 0)
           [Mobile.Scan "a"; Mobile.Register 1704067200000;
            Mobile.Focus Mobile.RecordsTab]).
  reflexivity.
Defined.


Section FormFacts.
Import JS Mobile.
Context (h : Host).




Lemma with_name_same (r : QRRecord) : with_name r (name r) = r.
Proof. by destruct r. Qed.

Lemma codes_unique (l : list QRRecord) (r r' : QRRecord) :
  NoDup (codes l) -> r ∈ l -> r' ∈ l -> qrcode r = qrcode r' -> r = r'.
Proof.
  induction l as [|x l IH]; intros Hnd Hr Hr' Hc; [by apply elem_of_nil in Hr|].
  apply NoDup_cons in Hnd as [Hx Hnd].
  apply elem_of_cons in Hr as [->|Hr], Hr' as [->|Hr']; try done.
  - exfalso. apply Hx. rewrite Hc. by apply list_elem_of_fmap_2.
  - exfalso. apply Hx. rewrite <- Hc. by apply list_elem_of_fmap_2.
  - by apply IH.
Qed.

(** X6.  Opening the edit modal on a listed record and saving without
    typing changes no record: the list on the screen stays as it was and
    is what the storage then holds. *)
Theorem save_without_change (es : list Event) (r : QRRecord) :
  let a := run h initial (es ++ [Focus RecordsTab]) in
  r ∈ Records.records (recordsScreen a) ->
  let a' := run h a [OpenEdit r; SaveEdit] in
  Records.records (recordsScreen a') = Records.records (recordsScreen a) /\
  storage a' = Records.records (recordsScreen a) /\
  storage a' ≡ₚ storage a.
Proof.
  intros a Hr a'.
  assert (Ha : MobileInv a) by apply MobileInv_reachable.
  assert (Hf : focused a = RecordsTab).
  { subst a. rewrite run_snoc. apply focus_records. }
  destruct (Mobile_wellFormed h (es ++ [Focus RecordsTab])) as [_ Hwf]. fold a in Hwf.
  destruct (proj1 (Forall_forall _ _) Hwf r Hr) as (_ & _ & Hn & Hnt).
  assert (Hmap : map (fun record =>
             if String.eqb (qrcode record) (qrcode r)
             then with_name record (trim (name r)) else record)
           (Records.records (recordsScreen a)) = Records.records (recordsScreen a)).
  { rewrite <- (map_id (Records.records (recordsScreen a))) at 2.
    apply map_ext_in. intros x Hx%list_elem_of_In.
    destruct (String.eqb_spec (qrcode x) (qrcode r)) as [E|_]; [|done].
    rewrite Hnt. rewrite (codes_unique _ x r (inv_codes_screen a Ha) Hx Hr E).
    apply with_name_same. }
  assert (E : a' = {| storage := Records.records (recordsScreen a);
                      scanner := scanner a;
                      recordsScreen :=
                        {| Records.records := Records.records (recordsScreen a);
                           Records.editModalVisible := false;
                           Records.editingRecord := None;
                           Records.editName := "" |};
                      focused := RecordsTab |}).
  { subst a'. cbn [run fold_left]. cbn [step]. unfold on_records. rewrite Hf.
    cbn [focused with_records recordsScreen]. unfold Records.saveEdit.
    cbn [Records.editRecord Records.editingRecord Records.editName Records.records].
    rewrite Hnt. apply truthy_true in Hn. rewrite Hn. cbn [negb].
    rewrite Hf. rewrite Hnt in Hmap. by rewrite Hmap. }
  rewrite E. cbn [storage recordsScreen Records.records].
  split; [done|]. split; [done|]. by apply inv_sync.
Qed.

End FormFacts.

Lemma save_without_change_witness :
  let r := {| qrcode := "a"; name := "Unnamed"; timestamp := "2024-01-01T03:00:00.000Z";
              timezoneOffset := None |} in
  let a := Mobile.run (JS.fixedHost 0) Mobile.initial
             [Mobile.Scan "a"; Mobile.Register 1704067200000;
              Mobile.Focus Mobile.RecordsTab] in
  Mobile.storage (Mobile.run (JS.fixedHost 0) a [Mobile.OpenEdit r; Mobile.SaveEdit])
  = Records.records (Mobile.recordsScreen a).
Proof.
  intros r a.
  destruct (save_without_change (JS.fixedHost 0)
              [Mobile.Scan "a"; Mobile.Register 1704067200000] r) as (_ & H & _).
  - vm_compute. left.
  - exact H.
Defined.

(* ===================================================================== *)
(** * Further properties: timestamps from the clock to the screen         *)
(* ===================================================================== *)

Section TimestampFacts.
Import JS Format.

Lemma toISOString_nonempty (t : Z) (s : string) :
  toISOString (Some t) = Some s -> s <> "".
Proof.
  intros [= <-] E. apply (f_equal String.length) in E.
  rewrite !length_append in E. simpl in E. lia.
Qed.

Lemma conforming_reads_toISOString (h : Host) (t : Z) (s : string) :
  conforming h -> Z.abs t <= maxTime -> toISOString (Some t) = Some s ->
  new_Date_string h s = Some t.
Proof.
  intros Hconf Ht Hs. destruct (isoParse_toISOString t Ht) as (s' & Hs' & Hparse).
  rewrite Hs in Hs'. injection Hs' as <-.
  unfold new_Date_string. rewrite (Hconf _ _ Hparse). by apply TimeClip_in_range.
Qed.

(** The time value of a record the mobile scanner has registered *)
Lemma Scanner_time_value (h : Host) (now : Z) (sto : list QRRecord)
    (st : Scanner.State) (r : QRRecord) :
  conforming h ->
  snd (Scanner.handleRegister h now sto st) = Scanner.Registered r ->
  timeOf h r = Some (now + tzOffset h now * 60000 + 10800000).
Proof.
  intros Hconf Hres.
  pose proof (handleRegister_cases h now sto st) as Hcases. simpl in Hcases.
  rewrite Hres in Hcases.
  destruct Hcases as [[_ E]|[(_ & _ & _ & ? & _)|[(_ & _ & _ & _ & ? & _)|
    (_ & _ & [_ Hnow] & r' & _ & [= <-] & _ & _ & Hiso & _)]]]; try done.
  { rewrite E in Hres. done. }
  unfold timeOf, getTime. by apply conforming_reads_toISOString.
Qed.

(** The time value of a record the web form has registered *)
Lemma Web_time_value (h : Host) (now : Z) (db : gmap string QRRecord)
    (q n : string) (r : QRRecord) :
  conforming h ->
  snd (Web.handleFormSubmission now db q n) = Web.Registered r ->
  timeOf h r = Some now.
Proof.
  intros Hconf Hres.
  pose proof (Web_handleFormSubmission_cases now db q n) as Hcases. simpl in Hcases.
  destruct Hcases as [[_ E]|[(_ & _ & E)|[(_ & _ & _ & E)|
    (_ & _ & Hnow & r' & E & _ & _ & Hiso & _)]]]; rewrite E in Hres; try done.
  injection Hres as <-.
  unfold timeOf, getTime. by apply conforming_reads_toISOString.
Qed.

(** The texts of a timestamp that parses, on a host of constant offset *)
Lemma formatted_instant (h : Host) (off now t : Z) (ts : string) :
  (forall u, tzOffset h u = off) ->
  Z.abs off <= 1440 ->
  ts <> "" ->
  new_Date_string h ts = Some t ->
  Z.abs t <= maxTime - 100000000 ->
  Records.formatCSVTime h (Some ts) = csvOf (fixedHost 0) (Some (t + 10800000)) /\
  Records.formatDisplayTime h (Some ts) = displayOf (fixedHost 0) (Some (t + 10800000)) /\
  Web.formatCSVTime h now (Some ts) = csvOf (fixedHost 0) (Some (t + 10800000)) /\
  Web.formatDisplayTime h now (Some ts) = displayOf (fixedHost 0) (Some (t + 10800000)).
Proof.
  intros Hoff Hbound Hts Hparse Ht.
  assert (He : Z.abs (t + tzOffset h t * 60000 + 10800000) <= maxTime).
  { rewrite Hoff. unfold maxTime in *. lia. }
  assert (Hsame : tzOffset h (t + tzOffset h t * 60000 + 10800000) = tzOffset h t)
    by (by rewrite !Hoff).
  rewrite (Records_formatCSVTime_valid h ts t Hts Hparse).
  rewrite (Records_formatDisplayTime_valid h ts t Hts Hparse).
  rewrite Web_formatCSVTime_present, Web_formatDisplayTime_present, Hparse by done.
  by rewrite (csvOf_shift h t He Hsame), (displayOf_shift h t He Hsame).
Qed.

(** X7.  On a conforming host the timestamp of a registered record
    reads back as the time value it was written from: the clock reading
    moved by the host offset and three hours in the mobile application,
    the clock reading itself in the web application. *)
Theorem stored_timestamp_reads_back (h : Host) :
  conforming h ->
  (forall now sto st r,
     snd (Scanner.handleRegister h now sto st) = Scanner.Registered r ->
     timeOf h r = Some (now + tzOffset h now * 60000 + 10800000)) /\
  (forall now db q n r,
     snd (Web.handleFormSubmission now db q n) = Web.Registered r ->
     timeOf h r = Some now).
Proof.
  intros Hconf. split.
  - intros now sto st r. by apply Scanner_time_value.
  - intros now db q n r. by apply Web_time_value.
Qed.

Lemma stored_timestamp_reads_back_witness :
  timeOf (fixedHost 0)
    {| qrcode := "a"; name := "Unnamed"; timestamp := "2024-01-01T03:00:00.000Z";
       timezoneOffset := None |}
  = Some (1704067200000 + 0 * 60000 + 10800000).
Proof.
  destruct (stored_timestamp_reads_back (fixedHost 0) (conforming_fixedHost 0)) as [H _].
  apply (H 1704067200000 []
           (fst (Scanner.handleQRCodeScanned [] Scanner.initial "a"))).
  reflexivity.
Defined.

(** X8.  On a host of constant offset, for every timestamp that parses
    to an instant not within a day of the ends of the time range, the
    formatted texts are those of the UTC fields three hours after the
    instant: they do not depend on the offset of the host, and the mobile
    and the web formatters give the same texts. *)
Theorem formatting_depends_on_the_instant_only (h : Host) (off now t : Z) (ts : string) :
  (forall u, tzOffset h u = off) ->
  Z.abs off <= 1440 ->
  ts <> "" ->
  new_Date_string h ts = Some t ->
  Z.abs t <= maxTime - 100000000 ->
  Records.formatCSVTime h (Some ts) = csvOf (fixedHost 0) (Some (t + 10800000)) /\
  Records.formatDisplayTime h (Some ts) = displayOf (fixedHost 0) (Some (t + 10800000)) /\
  Web.formatCSVTime h now (Some ts) = csvOf (fixedHost 0) (Some (t + 10800000)) /\
  Web.formatDisplayTime h now (Some ts) = displayOf (fixedHost 0) (Some (t + 10800000)).
Proof.
  intros Hoff Hbound Hts Hparse Ht. by apply (formatted_instant h off now t ts).
Qed.

Lemma formatting_depends_on_the_instant_only_witness :
  Records.formatCSVTime (fixedHost (-480)) (Some "2024-06-30T22:15:30.000Z")
  = csvOf (fixedHost 0) (Some (1719785730000 + 10800000)).
Proof.
  apply (formatting_depends_on_the_instant_only (fixedHost (-480)) (-480) 0
           1719785730000 "2024-06-30T22:15:30.000Z").
  - reflexivity.
  - vm_compute. discriminate.
  - discriminate.
  - vm_compute. reflexivity.
  - vm_compute. discriminate.
Defined.

(** X9.  What the records screen shows for a record it has registered:
    on a conforming host of constant offset [off], a record registered by
    the mobile scanner at [now] is shown with the UTC fields of [now]
    moved by [off] minutes and six hours, which is three hours after [now]
    only when [off] is -180; a record registered by the web application
    is shown with the UTC fields three hours after [now]. *)
Theorem shown_time_of_a_registration (h : Host) (off now : Z) :
  conforming h ->
  (forall u, tzOffset h u = off) ->
  Z.abs off <= 1440 ->
  Z.abs now <= maxTime - 200000000 ->
  (forall sto st r,
     snd (Scanner.handleRegister h now sto st) = Scanner.Registered r ->
     Records.formatDisplayTime h (Some (timestamp r))
       = displayOf (fixedHost 0) (Some (now + off * 60000 + 21600000)) /\
     Records.formatCSVTime h (Some (timestamp r))
       = csvOf (fixedHost 0) (Some (now + off * 60000 + 21600000))) /\
  (forall now' db q n r,
     snd (Web.handleFormSubmission now db q n) = Web.Registered r ->
     Web.formatDisplayTime h now' (Some (timestamp r))
       = displayOf (fixedHost 0) (Some (now + 10800000)) /\
     Web.formatCSVTime h now' (Some (timestamp r))
       = csvOf (fixedHost 0) (Some (now + 10800000))).
Proof.
  intros Hconf Hoff Hbound Hnow.
  split.
  - intros sto st r Hres.
    assert (Hts : timestamp r <> "").
    { destruct (Scanner_timestamp h now sto st r Hres) as [Hiso _].
      symmetry in Hiso. by apply toISOString_nonempty in Hiso. }
    pose proof (Scanner_time_value h now sto st r Hconf Hres) as Ht. rewrite Hoff in Ht.
    destruct (formatted_instant h off 0
                (now + off * 60000 + 10800000) (timestamp r) Hoff Hbound Hts Ht)
      as (Hc & Hd & _).
    { unfold maxTime in *. lia. }
    rewrite Hc, Hd.
    by replace (now + off * 60000 + 10800000 + 10800000)
      with (now + off * 60000 + 21600000) by lia.
  - intros now' db q n r Hres.
    assert (Hts : timestamp r <> "").
    { pose proof (Web_timestamp now db q n r Hres) as Hiso.
      symmetry in Hiso. by apply toISOString_nonempty in Hiso. }
    pose proof (Web_time_value h now db q n r Hconf Hres) as Ht.
    destruct (formatted_instant h off now' now (timestamp r)
                Hoff Hbound Hts Ht) as (_ & _ & Hc & Hd).
    { unfold maxTime in *. lia. }
    by rewrite Hc, Hd.
Qed.

Lemma shown_time_of_a_registration_witness :
  Records.formatDisplayTime (fixedHost 0) (Some "2024-01-01T03:00:00.000Z")
  = displayOf (fixedHost 0) (Some (1704067200000 + 0 * 60000 + 21600000)).
Proof.
  destruct (shown_time_of_a_registration (fixedHost 0) 0 1704067200000) as [H _].
  - apply conforming_fixedHost.
  - reflexivity.
  - vm_compute. discriminate.
  - vm_compute. discriminate.
  - apply (H [] (fst (Scanner.handleQRCodeScanned [] Scanner.initial "a"))
             {| qrcode := "a"; name := "Unnamed";
                timestamp := "2024-01-01T03:00:00.000Z"; timezoneOffset := None |}).
    reflexivity.
Defined.

(** X10.  The mobile and the web formatters return the same texts
    exactly on the inputs that are absent, empty or parsed by the host;
    on every other input they differ. *)
Theorem formatters_agree_unless_unparseable (h : Host) (now : Z) (tso : option string) :
  (Records.formatDisplayTime h tso = Web.formatDisplayTime h now tso /\
   Records.formatCSVTime h tso = Web.formatCSVTime h now tso)
  <-> (absent tso = true \/
       exists s t, tso = Some s /\ new_Date_string h s = Some t).
Proof.
  destruct tso as [s|]; [|split; [by left|done]].
  destruct (truthy s) eqn:Hs.
  2:{ apply truthy_false in Hs. subst s. split; [by left|done]. }
  apply truthy_true in Hs.
  destruct (new_Date_string h s) as [t|] eqn:Ht.
  - split; [intros _; right; by exists s, t|intros _].
    rewrite (Records_formatDisplayTime_valid h s t), (Records_formatCSVTime_valid h s t),
      Web_formatDisplayTime_present, Web_formatCSVTime_present, Ht by done. done.
  - destruct (Records_formatters_invalid h s Hs Ht) as [-> ->].
    destruct (Web_formatters_invalid h now s Hs Ht) as [-> ->].
    split; [intros [? _]; done|].
    intros [Habs|(s' & t & [= <-] & E)]; [|congruence].
    simpl in Habs. apply truthy_true in Hs. by rewrite Hs in Habs.
Qed.

End TimestampFacts.

(* ===================================================================== *)
(** * Further properties: reloading and exporting                         *)
(* ===================================================================== *)

Section ReloadFacts.
Import JS.
Context (h : Host).

(** Sorting an array that is in order returns it as it is. *)
Lemma sort_of_sorted (l : list QRRecord) :
  StronglySorted (notOlder h) l -> sort (byTimestampDesc h) l = l.
Proof.
  induction 1 as [|x l Hs IH Hx]; [done|]. simpl. rewrite IH.
  destruct l as [|y l]; [done|]. simpl.
  apply Forall_cons in Hx as [(tx & ty & Ex & Ey & Hle) _].
  rewrite (SortCompare_byTimestampDesc h x y tx ty Ex Ey).
  destruct (Z.leb_spec (ty - tx) 0); [done|lia].
Qed.

(** X11.  On a conforming host, loading again from a storage that holds
    the list the screen has loaded, which is what a deletion or an edit
    writes back, shows the records in the same order. *)
Theorem reload_keeps_the_order (es : list Mobile.Event) :
  conforming h ->
  let a := Mobile.run h Mobile.initial es in
  let st1 := Records.loadRecords h (Mobile.storage a) (Mobile.recordsScreen a) in
  Records.records (Records.loadRecords h (Records.records st1) st1)
  = Records.records st1.
Proof.
  intros Hconf a st1. subst st1. simpl. apply sort_of_sorted, sort_sorted.
  eapply Forall_impl; [apply Mobile_stamped|]. intros r. by apply wellStamped_parses.
Qed.

End ReloadFacts.

Lemma reload_keeps_the_order_witness :
  let h := JS.fixedHost 0 in
  let a := Mobile.run h Mobile.initial
             [Mobile.Scan "a"; Mobile.Register 1704067200000;
              Mobile.Scan "b"; Mobile.Register 1704153600000] in
  let st1 := Records.loadRecords h (Mobile.storage a) (Mobile.recordsScreen a) in
  Records.records (Records.loadRecords h (Records.records st1) st1)
  = Records.records st1.
Proof.
  apply (reload_keeps_the_order (JS.fixedHost 0)
           [Mobile.Scan "a"; Mobile.Register 1704067200000;
            Mobile.Scan "b"; Mobile.Register 1704153600000]).
  apply conforming_fixedHost.
Defined.

Section ExportFacts.
Import JS Csv CsvSpec.

Lemma Web_getAll_nil (db : gmap string QRRecord) : Web.getAll db = [] <-> db = ∅.
Proof.
  split.
  - intros E. pose proof (Web_getAll_Permutation db) as Hp. rewrite E in Hp.
    apply Permutation_nil_l in Hp. symmetry in Hp. apply fmap_nil_inv in Hp.
    by apply map_to_list_empty_iff.
  - intros ->. apply Permutation_nil_r. rewrite Web_getAll_Permutation.
    by rewrite map_to_list_empty.
Qed.

Lemma sort_nil {A} (cmp : A -> A -> number) (l : list A) : sort cmp l = [] <-> l = [].
Proof.
  split; [|by intros ->]. intros E. pose proof (sort_Permutation cmp l) as Hp.
  rewrite E in Hp. by apply Permutation_nil_r in Hp.
Qed.

(** X12.  An export is turned down exactly when there is no record: no
    record on the mobile screen, an empty store in the web application.
    Otherwise the text, read back as CSV, is the header and one row per
    record with its name, code and formatted date: the records of the
    screen in their order on the screen, the records of the web store
    newest first. *)
Theorem export_lists_what_is_shown (h : Host) (now : Z) (st : Records.State)
    (db : gmap string QRRecord) :
  (Records.exportToCSV h st = None <-> Records.records st = []) /\
  (forall text, Records.exportToCSV h st = Some text ->
     parseCsv text
     = Some (headerCells :: map (cells (Records.formatCSVTime h)) (Records.records st))) /\
  (Web.exportToCSV h now db = None <-> db = ∅) /\
  (forall text, Web.exportToCSV h now db = Some text ->
     parseCsv text
     = Some (headerCells :: map (cells (Web.formatCSVTime h now)) (Web.loadRecords h db))).
Proof.
  split; [|split; [|split]].
  - unfold Records.exportToCSV. destruct (Records.records st); split; done.
  - unfold Records.exportToCSV. intros text.
    destruct (Records.records st) as [|r l]; [done|]. intros [= <-].
    apply parseCsv_csvContent.
  - rewrite <- Web_getAll_nil. unfold Web.exportToCSV.
    destruct (Web.getAll db); split; done.
  - unfold Web.exportToCSV, Web.loadRecords. intros text.
    destruct (Web.getAll db) as [|r l]; [done|]. intros [= <-].
    apply parseCsv_csvContent.
Qed.

End ExportFacts.

Section FilenameFacts.
Import JS Csv.

Lemma length_repeat_char (c : ascii) (n : nat) : String.length (repeat_char c n) = n.
Proof. induction n as [|n IH]; simpl; congruence. Qed.

Lemma length_padStart_ge (n : nat) (c : ascii) (s : string) :
  (n <= String.length (padStart n c s))%nat.
Proof. unfold padStart. rewrite length_append, length_repeat_char. lia. Qed.

Lemma length_padStart_exact (n : nat) (c : ascii) (s : string) :
  (String.length s <= n)%nat -> String.length (padStart n c s) = n.
Proof. intros H. unfold padStart. rewrite length_append, length_repeat_char. lia. Qed.

Lemma length_Z_toString (n : nat) (v : Z) :
  0 <= v < 10 ^ Z.of_nat n -> (1 <= n)%nat -> (String.length (Z_toString v) <= n)%nat.
Proof.
  intros Hv Hn. unfold Z_toString. destruct v as [|p|p]; [simpl; lia| |lia].
  pose proof (nb_digits_to_uint p n (proj2 Hv)) as Hd.
  pose proof (Unsigned.to_uint_nonnil p) as Hnil.
  cbn [Z.to_int NilZero.string_of_int]. unfold NilZero.string_of_uint.
  destruct (Pos.to_uint p) eqn:E; [done|..]; by rewrite length_string_of_uint.
Qed.

Lemma length_pad2 (v : Z) : 0 <= v <= 99 -> String.length (pad2 v) = 2%nat.
Proof. intros Hv. apply length_padStart_exact, length_Z_toString; simpl; lia. Qed.

Lemma length_isoYear (y : Z) : 0 <= y <= 9999 -> String.length (isoYear y) = 4%nat.
Proof.
  intros Hy. unfold isoYear.
  destruct (Z.leb_spec 0 y), (Z.leb_spec y 9999); try lia. simpl andb. cbv iota.
  apply length_padStart_exact, length_Z_toString; simpl; lia.
Qed.

Lemma length_isoYear_ge (y : Z) : (4 <= String.length (isoYear y))%nat.
Proof.
  unfold isoYear. destruct (_ && _).
  - apply length_padStart_ge.
  - rewrite length_append. pose proof (length_padStart_ge 6 "0" (Z_toString (Z.abs y))). lia.
Qed.

Lemma slice0_zero (s : string) : slice0 0 s = "".
Proof. by destruct s. Qed.

Lemma slice0_step (k n : nat) (x r : string) :
  String.length x = k -> slice0 (k + n) (x +:+ r) = x +:+ slice0 n r.
Proof.
  revert k. induction x as [|c x IH]; intros k <-; [done|].
  rewrite !append_cons. simpl. unfold slice0 in *. simpl. f_equal. by apply IH.
Qed.

Lemma length_slice0 (n : nat) (s : string) :
  (n <= String.length s)%nat -> String.length (slice0 n s) = n.
Proof.
  revert s. unfold slice0. induction n as [|n IH]; intros s H; [by destruct s|].
  destruct s as [|c s]; simpl in *; [lia|]. f_equal. apply IH. lia.
Qed.

Lemma replaceAll_append (c : ascii) (b x y : string) :
  replaceAll c b (x +:+ y) = replaceAll c b x +:+ replaceAll c b y.
Proof.
  induction x as [|d x IH]; [done|]. rewrite append_cons. simpl.
  by rewrite IH, append_assoc.
Qed.

Lemma replaceAll_absent (c : ascii) (b s : string) :
  includes c s = false -> replaceAll c b s = s.
Proof.
  induction s as [|d s IH]; [done|]. simpl. intros H.
  apply orb_false_iff in H as [Hd Hs]. by rewrite Hd, IH.
Qed.

(** Replacing every occurrence of a character leaves none, unless the
    replacement brings it back. *)
Lemma includes_replaceAll (c : ascii) (b s : string) :
  includes c b = false -> includes c (replaceAll c b s) = false.
Proof.
  intros Hb. induction s as [|d s IH]; [done|]. simpl.
  rewrite includes_append, IH, orb_false_r.
  destruct (Ascii.eqb d c) eqn:E; [done|]. simpl. by rewrite E.
Qed.

Lemma length_replaceAll (c d : ascii) (s : string) :
  String.length (replaceAll c (String d "") s) = String.length s.
Proof.
  induction s as [|x s IH]; [done|]. simpl. rewrite length_append, IH.
  by destruct (Ascii.eqb x c).
Qed.

Lemma colon_string_of_uint (d : Decimal.uint) :
  includes ":" (NilEmpty.string_of_uint d) = false.
Proof. induction d; simpl; done. Qed.

Lemma colon_Z_toString (z : Z) : includes ":" (Z_toString z) = false.
Proof.
  unfold Z_toString.
  destruct (Z.to_int z) as [d|d]; simpl; destruct d; simpl;
    try done; apply colon_string_of_uint.
Qed.

Lemma colon_pad2 (z : Z) : includes ":" (pad2 z) = false.
Proof. unfold pad2. rewrite includes_padStart by done. apply colon_Z_toString. Qed.

Lemma colon_isoYear (y : Z) : includes ":" (isoYear y) = false.
Proof.
  unfold isoYear. destruct (_ && _).
  - rewrite includes_padStart by done. apply colon_Z_toString.
  - rewrite includes_append, includes_padStart by done.
    rewrite colon_Z_toString. by destruct (y <? 0).
Qed.

(** X13.  At a clock value that is a valid time, each export names its
    file qr-registration-, a stamp of 19 characters without a colon, and
    .csv.  In the years 0 to 9999 the stamp is the UTC date and time of
    the clock as YYYY-MM-DDTHH-mm-ss. *)
Theorem export_filename_shape (now : Z) :
  Z.abs now <= maxTime ->
  exists stamp,
    exportFilename now = Some ("qr-registration-" +:+ stamp +:+ ".csv") /\
    String.length stamp = 19%nat /\
    includes ":" stamp = false /\
    (0 <= YearFromTime now <= 9999 ->
     stamp = isoYear (YearFromTime now) +:+ "-" +:+ pad2 (MonthFromTime now + 1)
             +:+ "-" +:+ pad2 (DateFromTime now)
             +:+ "T" +:+ pad2 (HourFromTime now)
             +:+ "-" +:+ pad2 (MinFromTime now)
             +:+ "-" +:+ pad2 (SecFromTime now)).
Proof.
  intros Hnow. unfold exportFilename. rewrite TimeClip_in_range by done.
  cbn [toISOString]. cbv zeta. eexists. split; [reflexivity|].
  split; [|split].
  - rewrite length_replaceAll. apply length_slice0.
    rewrite !length_append. pose proof (length_isoYear_ge (YearFromTime now)).
    pose proof (length_padStart_ge 2 "0" (Z_toString (MonthFromTime now + 1))).
    pose proof (length_padStart_ge 2 "0" (Z_toString (DateFromTime now))).
    pose proof (length_padStart_ge 2 "0" (Z_toString (HourFromTime now))).
    pose proof (length_padStart_ge 2 "0" (Z_toString (MinFromTime now))).
    pose proof (length_padStart_ge 2 "0" (Z_toString (SecFromTime now))).
    unfold pad2. simpl String.length. lia.
  - by apply includes_replaceAll.
  - intros Hy.
    pose proof (MonthFromTime_spec now) as [Hm _].
    pose proof (DateFromTime_range now) as [[Hd _] Hd'].
    pose proof (HourFromTime_range now) as Hh.
    pose proof (MinFromTime_range now) as Hmi.
    pose proof (SecFromTime_range now) as Hs.
    change 19%nat with (4 + (1 + (2 + (1 + (2 + (1 + (2 + (1 + (2 + (1 + (2 + 0)))))))))))%nat.
    rewrite (slice0_step 4) by (by apply length_isoYear).
    rewrite (slice0_step 1 _ "-") by done.
    rewrite (slice0_step 2) by (apply length_pad2; lia).
    rewrite (slice0_step 1 _ "-") by done.
    rewrite (slice0_step 2) by (apply length_pad2; lia).
    rewrite (slice0_step 1 _ "T") by done.
    rewrite (slice0_step 2) by (apply length_pad2; lia).
    rewrite (slice0_step 1 _ ":") by done.
    rewrite (slice0_step 2) by (apply length_pad2; lia).
    rewrite (slice0_step 1 _ ":") by done.
    rewrite (slice0_step 2) by (apply length_pad2; lia).
    rewrite slice0_zero, append_nil_r.
    rewrite !replaceAll_append.
    rewrite !(replaceAll_absent _ _ (pad2 _)) by apply colon_pad2.
    rewrite (replaceAll_absent _ _ (isoYear _)) by apply colon_isoYear.
    reflexivity.
Qed.

Lemma export_filename_shape_witness :
  exportFilename 1704067200000 = Some "qr-registration-2024-01-01T00-00-00.csv".
Proof.
  assert (Hnow : Z.abs 1704067200000 <= maxTime) by (vm_compute; discriminate).
  destruct (export_filename_shape 1704067200000 Hnow) as (stamp & E & _ & _ & Hs).
  rewrite E, Hs; [reflexivity|]. vm_compute. split; discriminate.
Defined.

End FilenameFacts.

Section WebFormFacts.
Import JS.

(** X14.  In the web application a scanned message that is blank leaves
    the code field as it is.  Any other message puts its trimmed text in
    the field, which enables the Register button, and submitting the form
    then does what submitting the message itself as the code does. *)
Theorem web_scan_fills_the_code (db : gmap string QRRecord) (now : Z)
    (old msg n : string) :
  (trim msg = "" -> Web.onScanSuccess old msg = old) /\
  (trim msg <> "" ->
   Web.onScanSuccess old msg = trim msg /\
   Web.updateRegisterButton (Web.onScanSuccess old msg) = false /\
   Web.handleFormSubmission now db (Web.onScanSuccess old msg) n
   = Web.handleFormSubmission now db msg n).
Proof.
  unfold Web.onScanSuccess. split.
  - intros E. rewrite E. simpl. by rewrite andb_false_r.
  - intros Hne. assert (Hm : truthy msg = true).
    { destruct msg; [done|done]. }
    assert (Ht : truthy (trim msg) = true) by by apply truthy_true.
    rewrite Hm, Ht. simpl. split; [done|]. split.
    + unfold Web.updateRegisterButton. cbv zeta.
      by rewrite trim_idempotent, Ht.
    + unfold Web.handleFormSubmission. by rewrite trim_idempotent.
Qed.

Lemma web_scan_fills_the_code_witness :
  Web.onScanSuccess "" " A1 " = "A1" /\
  Web.updateRegisterButton (Web.onScanSuccess "" " A1 ") = false /\
  Web.handleFormSubmission 1704067200000 ∅ (Web.onScanSuccess "" " A1 ") "Jo"
  = Web.handleFormSubmission 1704067200000 ∅ " A1 " "Jo".
Proof.
  destruct (web_scan_fills_the_code ∅ 1704067200000 "" " A1 " "Jo") as [_ H].
  apply H. vm_compute. discriminate.
Defined.

(** X15.  In every store the web application reaches, a deletion that is
    not confirmed changes nothing.  A confirmed one leaves exactly the
    records whose code is not the deleted one, changes nothing when no
    record has that code, and afterwards the code can be registered
    again. *)
Theorem web_delete_removes_only_that_code (wes : list Web.Event) (c : string) :
  let db := Web.run ∅ wes in
  let db' := Web.deleteRecord db c true in
  Web.deleteRecord db c false = db /\
  (forall r, r ∈ Web.getAll db' <-> r ∈ Web.getAll db /\ qrcode r <> c) /\
  (c ∉ codes (Web.getAll db) -> db' = db) /\
  (forall now n, trim c = c -> c <> "" -> Z.abs now <= maxTime ->
     exists r, Web.handleFormSubmission now db' c n = (Web.put r db', Web.Registered r) /\
               qrcode r = c).
Proof.
  intros db db'. pose proof (WebInv_reachable wes) as Hdb. fold db in Hdb.
  subst db'. unfold Web.deleteRecord. split; [done|]. split; [|split].
  - intros r. rewrite !Web_getAll_elem. split.
    + intros (k & Hk). apply lookup_delete_Some in Hk as [Hkc Hk].
      split; [by exists k|]. by destruct (Hdb k r Hk) as [-> _].
    + intros [(k & Hk) Hr]. exists k. apply lookup_delete_Some. split; [|done].
      destruct (Hdb k r Hk) as [<- _]. done.
  - intros Hc. apply delete_id. destruct (db !! c) as [r|] eqn:E; [|done].
    exfalso. apply Hc. destruct (Hdb c r E) as [<- _].
    apply list_elem_of_fmap. exists r. split; [done|].
    apply Web_getAll_elem. by exists (qrcode r).
  - intros now n Htrim Hne Hnow.
    destruct (Web_handleFormSubmission_cases now (delete c db) c n)
      as [[E _]|[(_ & [r E] & _)|[(_ & _ & H & _)|(_ & _ & _ & r & E & Hq & _)]]].
    + rewrite Htrim in E. done.
    + rewrite Htrim, lookup_delete_eq in E. done.
    + done.
    + exists r. rewrite E, Htrim. split; [|by rewrite Hq]. unfold Web.put.
      by rewrite Hq, Htrim.
Qed.

End WebFormFacts.
